(** * zcert: a shallow embedding of the certificate authority and the
    trust-store layer of zgo.at/zcert, with the properties of its spec. *)

From Stdlib Require Import Ascii String ZArith Lia Bool.
From stdpp Require Import base gmap list strings pretty.



(* ------------------------------------------------------------------ *)
(** ** Byte helpers *)

Definition code (c : ascii) : nat := nat_of_ascii c.

Definition is_digit (c : ascii) : bool := (48 <=? code c)%nat && (code c <=? 57)%nat.
Definition is_lower (c : ascii) : bool := (97 <=? code c)%nat && (code c <=? 122)%nat.
Definition is_upper (c : ascii) : bool := (65 <=? code c)%nat && (code c <=? 90)%nat.
Definition is_alpha (c : ascii) : bool := is_lower c || is_upper c.

(** Value of a hexadecimal digit, [None] for any other byte. *)
Definition hex_val (c : ascii) : option Z :=
  let n := code c in
  if is_digit c then Some (Z.of_nat (n - 48))
  else if (97 <=? n)%nat && (n <=? 102)%nat then Some (Z.of_nat (n - 87))
  else if (65 <=? n)%nat && (n <=? 70)%nat then Some (Z.of_nat (n - 55))
  else None.

Definition digit_val (c : ascii) : Z := Z.of_nat (code c - 48).

Fixpoint str_elem (c : ascii) (s : string) : bool :=
  match s with
  | EmptyString => false
  | String d s' => Ascii.eqb c d || str_elem c s'
  end.

(** [strings.Index(s, string(c))]-style split at the first occurrence. *)
Fixpoint cut_at (c : ascii) (s : string) : option (string * string) :=
  match s with
  | EmptyString => None
  | String d s' =>
      if Ascii.eqb c d then Some (EmptyString, s')
      else match cut_at c s' with
           | Some (a, b) => Some (String d a, b)
           | None => None
           end
  end.

(** [strings.LastIndex]-style split at the last occurrence. *)
Fixpoint cut_last (c : ascii) (s : string) : option (string * string) :=
  match s with
  | EmptyString => None
  | String d s' =>
      match cut_last c s' with
      | Some (a, b) => Some (String d a, b)
      | None => if Ascii.eqb c d then Some (EmptyString, s') else None
      end
  end.

Fixpoint str_prefix (p s : string) : bool :=
  match p, s with
  | EmptyString, _ => true
  | String a p', String b s' => Ascii.eqb a b && str_prefix p' s'
  | _, _ => false
  end.

(** [bytes.Contains(s, sub)]. *)
Fixpoint str_contains (s sub : string) : bool :=
  str_prefix sub s ||
  match s with
  | EmptyString => false
  | String _ s' => str_contains s' sub
  end.

(* ------------------------------------------------------------------ *)
(** ** Go's [net.ParseIP] (netip parser, as used by Go's net package)

    [net.ParseIP] scans for the first '.', ':' or '%': '.' selects the
    IPv4 parser, ':' the IPv6 parser, '%' (or neither) fails; a zone
    makes [ParseIP] return nil. The result is the address bytes. *)

(** [parseIPv4Fields]: state is the current octet value, the number of
    digits read, the completed fields, and whether the previous byte
    was a dot ([prev_dot] is also true at the start). *)
Fixpoint parse_ipv4_fields (s : string) (val : Z) (dig : nat)
    (fields : list Z) (prev_dot : bool) : option (list Z) :=
  match s with
  | EmptyString =>
      if (List.length fields <? 3)%nat then None else Some (fields ++ [val])
  | String c s' =>
      if is_digit c then
        if (dig =? 1)%nat && (val =? 0)%Z then None
        else let v := (val * 10 + digit_val c)%Z in
             if (255 <? v)%Z then None
             else parse_ipv4_fields s' v (S dig) fields false
      else if Ascii.eqb c "."%char then
        if prev_dot || (match s' with EmptyString => true | _ => false end)
        then None
        else if (List.length fields =? 3)%nat then None
        else parse_ipv4_fields s' 0 0 (fields ++ [val]) true
      else None
  end.

Definition parse_ipv4 (s : string) : option (list Z) :=
  parse_ipv4_fields s 0 0 [] true.

(** One hexadecimal group of [parseIPv6]: at most four digits; returns the
    value, the number of digits and the rest of the input. *)
Fixpoint hex_group (s : string) (acc : Z) (off : nat) : option (Z * nat * string) :=
  match s with
  | String c s' =>
      match hex_val c with
      | Some h =>
          if (3 <? off)%nat then None
          else hex_group s' (acc * 16 + h)%Z (S off)
      | None => Some (acc, off, s)
      end
  | EmptyString => Some (acc, off, s)
  end.

Definition split16 (v : Z) : list Z := [Z.shiftr v 8; Z.land v 255].

(** The main loop of [parseIPv6], after the zone and a leading "::" have
    been split off. [i] counts the bytes written,
    [ell] is the position of the ellipsis. *)
Fixpoint ipv6_loop (fuel : nat) (s : string) (i : nat) (ell : option nat)
    (ip : list Z) : option (list Z * nat * option nat * string) :=
  match fuel with
  | O => None
  | S fuel' =>
      if (16 <=? i)%nat then Some (ip, i, ell, s) else
      match hex_group s 0 0 with
      | None => None
      | Some (acc, off, rest) =>
          if (off =? 0)%nat then None else
          match rest with
          | String "."%char _ =>
              if (match ell with None => true | Some _ => false end)
                 && negb (i =? 12)%nat then None
              else if (16 <? i + 4)%nat then None
              else match parse_ipv4 s with
                   | Some f => Some (ip ++ f, (i + 4)%nat, ell, EmptyString)
                   | None => None
                   end
          | EmptyString => Some (ip ++ split16 acc, (i + 2)%nat, ell, EmptyString)
          | String ":"%char EmptyString => None
          | String ":"%char (String ":"%char r) =>
              match ell with
              | Some _ => None
              | None =>
                  let ip' := ip ++ split16 acc in
                  match r with
                  | EmptyString => Some (ip', (i + 2)%nat, Some (i + 2)%nat, EmptyString)
                  | _ => ipv6_loop fuel' r (i + 2)%nat (Some (i + 2)%nat) ip'
                  end
              end
          | String ":"%char r => ipv6_loop fuel' r (i + 2)%nat ell (ip ++ split16 acc)
          | _ => None
          end
      end
  end.

Definition parse_ipv6 (s0 : string) : option (list Z) :=
  let '(s, has_zone) :=
    match cut_at "%"%char s0 with Some (a, _) => (a, true) | None => (s0, false) end in
  if has_zone then None (* [ParseIP] rejects zones, and "%" alone is an error *)
  else
  let '(s, ell0) :=
    match s with
    | String ":"%char (String ":"%char r) => (r, Some 0%nat)
    | _ => (s, None)
    end in
  match s, ell0 with
  | EmptyString, Some _ => Some (repeat 0%Z 16)
  | _, _ =>
    match ipv6_loop 16 s 0 ell0 [] with
    | None => None
    | Some (ip, i, ell, rest) =>
        match rest with
        | String _ _ => None
        | EmptyString =>
            if (i <? 16)%nat then
              match ell with
              | None => None
              | Some e => Some (take e ip ++ repeat 0%Z (16 - i) ++ drop e ip)
              end
            else match ell with Some _ => None | None => Some ip end
        end
    end
  end.

(** [net.ParseIP]: [None] plays the role of the nil [net.IP]. *)
Fixpoint parse_ip_dispatch (s0 s : string) : option (list Z) :=
  match s with
  | EmptyString => None
  | String c s' =>
      if Ascii.eqb c "."%char then parse_ipv4 s0
      else if Ascii.eqb c ":"%char then parse_ipv6 s0
      else if Ascii.eqb c "%"%char then None
      else parse_ip_dispatch s0 s'
  end.

Definition ParseIP (s : string) : option (list Z) := parse_ip_dispatch s s.

(* ------------------------------------------------------------------ *)
(** ** Go's [mail.ParseAddress], on ASCII input

    The [Address] field of the result is returned. An addr-spec
    ([dot-atom "@" dot-atom], each part preceded by optional blanks, and
    followed by optional blanks) yields its [local "@" domain]. The other
    accepted forms (display names, angle addresses, groups, comments,
    quoted local parts) are all reported as [None] here: their [Address]
    always differs from the input, which is all [MakeCert] looks at. *)

Definition is_blank (c : ascii) : bool :=
  Ascii.eqb c " "%char || Ascii.eqb c (ascii_of_nat 9).

Fixpoint skip_space (s : string) : string :=
  match s with
  | String c s' => if is_blank c then skip_space s' else s
  | EmptyString => s
  end.

(** [isAtext(r, dot, false)] for an ASCII byte. *)
Definition is_atext (dot : bool) (c : ascii) : bool :=
  if Ascii.eqb c "."%char then dot
  else if str_elem c "()<>[]:;@\,"%string || Ascii.eqb c (ascii_of_nat 34) then false
  else (33 <=? code c)%nat && (code c <=? 126)%nat.

(** The longest prefix of atext bytes, and the rest. *)
Fixpoint span_atext (s : string) : string * string :=
  match s with
  | String c s' =>
      if is_atext true c then let '(a, r) := span_atext s' in (String c a, r)
      else (EmptyString, s)
  | EmptyString => (EmptyString, EmptyString)
  end.

(** [strings.HasSuffix(s, string(c))]. *)
Fixpoint ends_with (c : ascii) (s : string) : bool :=
  match s with
  | String d EmptyString => Ascii.eqb c d
  | String _ s' => ends_with c s'
  | EmptyString => false
  end.

(** [consumeAtom(true, false)]: non-empty, no leading, trailing or double dot. *)
Definition consume_atom (s : string) : option (string * string) :=
  let '(a, r) := span_atext s in
  match a with
  | EmptyString => None
  | _ =>
      if str_prefix "." a || str_contains a ".." || ends_with "."%char a then None
      else Some (a, r)
  end.

(** [consumeAddrSpec] restricted to a dot-atom local part and domain. *)
Definition consume_addr_spec (s : string) : option (string * string) :=
  match skip_space s with
  | String "034"%char _ => None
  | s1 =>
      match consume_atom s1 with
      | Some (local, String "@"%char r) =>
          match skip_space r with
          | String "["%char _ => None
          | r1 =>
              match consume_atom r1 with
              | Some (domain, rest) => Some ((local ++ "@" ++ domain)%string, rest)
              | None => None
              end
          end
      | _ => None
      end
  end.

Definition ParseAddress (s : string) : option string :=
  match consume_addr_spec s with
  | Some (spec, rest) =>
      match skip_space rest with
      | EmptyString => Some spec
      | _ => None
      end
  | None => None
  end.

(* ------------------------------------------------------------------ *)
(** ** Go's [url.Parse], on ASCII input

    Only what decides [Scheme] and [Host] and whether parsing fails is
    kept: [getScheme], the query and fragment split, the opaque and
    relative-path rules, [parseAuthority], [parseHost] and the escape
    checks of [unescape]. *)

Record URL := mkURL { Scheme : string; Opaque : string; Host : string;
                      Path : string }.

Inductive encoding := encodePath | encodeHost | encodeZone
                    | encodeUserPassword | encodeFragment.

Definition is_alnum (c : ascii) : bool := is_alpha c || is_digit c.

(** [shouldEscape(c, encodeHost)] (= [encodeZone]) for an ASCII byte. *)
Definition should_escape_host (c : ascii) : bool :=
  if is_alnum c then false
  else if str_elem c "!$&'()*+,;=:[]<>"%string || Ascii.eqb c (ascii_of_nat 34) then false
  else if str_elem c "-_.~"%string then false
  else true.

Definition host_mode (m : encoding) : bool :=
  match m with encodeHost | encodeZone => true | _ => false end.

(** [unescape(s, mode)]: the decoded string, or [None] for an escape error
    or an invalid host byte. *)
Fixpoint unescape (m : encoding) (s : string) : option string :=
  match s with
  | EmptyString => Some EmptyString
  | String "%"%char r =>
      match r with
      | String h1 (String h2 r') =>
          match hex_val h1, hex_val h2 with
          | Some v1, Some v2 =>
              let v := (v1 * 16 + v2)%Z in
              let is25 := (v =? 37)%Z in
              if (match m with encodeHost => true | _ => false end)
                 && (v1 <? 8)%Z && negb is25 then None
              else if (match m with encodeZone => true | _ => false end)
                 && negb is25 && negb (v =? 32)%Z
                 && should_escape_host (ascii_of_nat (Z.to_nat v)) then None
              else option_map (String (ascii_of_nat (Z.to_nat v))) (unescape m r')
          | _, _ => None
          end
      | _ => None
      end
  | String c r =>
      if host_mode m && (code c <? 128)%nat && should_escape_host c then None
      else option_map (String c) (unescape m r)
  end.

Definition all_digits (s : string) : bool :=
  forallb is_digit (list_ascii_of_string s).

(** [validOptionalPort]. *)
Definition valid_optional_port (p : string) : bool :=
  match p with
  | EmptyString => true
  | String ":"%char r => all_digits r
  | _ => false
  end.

(** [strings.Index(s, "%25")] as a split. *)
Fixpoint cut_pct25 (s : string) : option (string * string) :=
  match s with
  | EmptyString => None
  | String c s' =>
      if str_prefix "%25" s then Some (EmptyString, s)
      else match cut_pct25 s' with
           | Some (a, b) => Some (String c a, b)
           | None => None
           end
  end.

(** [parseHost]. *)
Definition parse_host (host : string) : option string :=
  match host with
  | String "["%char _ =>
      match cut_last "]"%char host with
      | None => None
      | Some (inside, port) =>
          if negb (valid_optional_port port) then None else
          match cut_pct25 inside with
          | Some (h1, zone) =>
              match unescape encodeHost h1, unescape encodeZone zone,
                    unescape encodeHost (String "]"%char port) with
              | Some a, Some b, Some c => Some (a ++ b ++ c)%string
              | _, _, _ => None
              end
          | None => unescape encodeHost host
          end
      end
  | _ =>
      match cut_last ":"%char host with
      | Some (_, port) =>
          if valid_optional_port (String ":"%char port) then unescape encodeHost host
          else None
      | None => unescape encodeHost host
      end
  end.

Definition valid_userinfo (s : string) : bool :=
  forallb (fun c => is_alnum c || str_elem c "-._:~!$&'()*+,;=%@")
          (list_ascii_of_string s).

(** [parseAuthority]: the host, after the userinfo checks. *)
Definition parse_authority (authority : string) : option string :=
  match cut_last "@"%char authority with
  | None => parse_host authority
  | Some (userinfo, h) =>
      match parse_host h with
      | None => None
      | Some host =>
          if negb (valid_userinfo userinfo) then None else
          let ok := match cut_at ":"%char userinfo with
                    | None => unescape encodeUserPassword userinfo
                    | Some (u, p) =>
                        match unescape encodeUserPassword u with
                        | Some _ => unescape encodeUserPassword p
                        | None => None
                        end
                    end in
          match ok with Some _ => Some host | None => None end
      end
  end.

(** [getScheme]: [None] is the "missing protocol scheme" error. *)
Fixpoint get_scheme_aux (s : string) (first : bool) : option (option (string * string)) :=
  match s with
  | EmptyString => Some None
  | String c s' =>
      if is_alpha c then
        match get_scheme_aux s' false with
        | Some (Some (sc, r)) => Some (Some (String c sc, r))
        | x => x
        end
      else if is_digit c || str_elem c "+-." then
        if first then Some None
        else match get_scheme_aux s' false with
             | Some (Some (sc, r)) => Some (Some (String c sc, r))
             | x => x
             end
      else if Ascii.eqb c ":"%char then
        if first then None else Some (Some (EmptyString, s'))
      else Some None
  end.

(** Scheme and rest of [getScheme] (no scheme: empty scheme, whole input). *)
Definition get_scheme (raw : string) : option (string * string) :=
  match get_scheme_aux raw true with
  | None => None
  | Some None => Some (EmptyString, raw)
  | Some (Some p) => Some p
  end.

Definition to_lower_ascii (c : ascii) : ascii :=
  if is_upper c then ascii_of_nat (code c + 32) else c.

Definition str_map (f : ascii -> ascii) (s : string) : string :=
  string_of_list_ascii (map f (list_ascii_of_string s)).

Definition contains_ctl (s : string) : bool :=
  existsb (fun c => (code c <? 32)%nat || (code c =? 127)%nat) (list_ascii_of_string s).

Fixpoint count_char (c : ascii) (s : string) : nat :=
  match s with
  | EmptyString => 0
  | String d s' => (if Ascii.eqb c d then 1 else 0) + count_char c s'
  end.

Definition drop_last (s : string) : string :=
  string_of_list_ascii (removelast (list_ascii_of_string s)).

(** [parse(rawURL, false)]. *)
Definition parse_url (raw : string) : option URL :=
  if contains_ctl raw then None
  else if String.eqb raw "*" then Some (mkURL "" "" "" "*")
  else match get_scheme raw with
  | None => None
  | Some (sc0, rest0) =>
    let sc := str_map to_lower_ascii sc0 in
    let rest :=
      if ends_with "?"%char rest0 && (count_char "?"%char rest0 =? 1)%nat then drop_last rest0
      else match cut_at "?"%char rest0 with Some (a, _) => a | None => rest0 end in
    let starts_slash := str_prefix "/" rest in
    if negb starts_slash && negb (String.eqb sc "") then Some (mkURL sc rest "" "")
    else if negb starts_slash &&
            str_elem ":"%char (match cut_at "/"%char rest with
                               | Some (seg, _) => seg | None => rest end)
    then None
    else
    let '(hostres, path) :=
      if (negb (String.eqb sc "") || negb (str_prefix "///" rest)) && str_prefix "//" rest
      then let auth_rest := substring 2 (String.length rest) rest in
           match cut_at "/"%char auth_rest with
           | Some (a, p) => (parse_authority a, String "/"%char p)
           | None => (parse_authority auth_rest, EmptyString)
           end
      else (Some EmptyString, rest) in
    match hostres with
    | None => None
    | Some h =>
        match unescape encodePath path with
        | Some p => Some (mkURL sc "" h p)
        | None => None
        end
    end
  end.

(** [url.Parse]: the fragment is cut off first and must unescape. *)
Definition ParseURL (raw : string) : option URL :=
  let '(u, frag) := match cut_at "#"%char raw with
                    | Some (a, b) => (a, b) | None => (raw, EmptyString) end in
  match parse_url u with
  | None => None
  | Some url => match unescape encodeFragment frag with
                | Some _ => Some url | None => None end
  end.

(* ------------------------------------------------------------------ *)
(** ** Certificates, keys and outcomes *)

(** A P-256 private key is its scalar; its public key is the point
    [d*G], written [ECPoint d] (scalar multiplication is injective on
    the scalars in range, so equal public keys mean equal keys). *)
Definition PrivateKey := Z.
Inductive PublicKey := ECPoint (d : Z).
Definition Public (k : PrivateKey) : PublicKey := ECPoint k.

#[global] Instance PublicKey_eq_dec : EqDecision PublicKey.
Proof. solve_decision. Defined.

Record pkixName := mkName {
  Organization : list string;
  OrganizationalUnit : list string;
  CommonName : string }.

Inductive ExtKeyUsage := ExtKeyUsageClientAuth | ExtKeyUsageServerAuth
                       | ExtKeyUsageCodeSigning | ExtKeyUsageEmailProtection.

(** The fields of [x509.Certificate] the code sets or reads. *)
Record Certificate := mkCert {
  SerialNumber : Z;
  Subject : pkixName;
  CertPublicKey : option PublicKey;
  SubjectKeyId : option PublicKey;
  IsCA : bool;
  IPAddresses : list (list Z);
  EmailAddresses : list string;
  URIs : list URL;
  DNSNames : list string;
  ExtKeyUsages : list ExtKeyUsage }.

(** What a Go call ends in: a result, a returned error, a run-time panic,
    or [log.Fatal], which exits the process. *)
Inductive outcome (A : Type) :=
  | Ok (a : A) | Err (msg : string) | Panic (msg : string) | Fatal (msg : string).
Arguments Ok {A}. Arguments Err {A}. Arguments Panic {A}. Arguments Fatal {A}.

Definition is_err {A} (o : outcome A) : bool :=
  match o with Err _ => true | _ => false end.

(* ------------------------------------------------------------------ *)
(** ** [CARoot.MakeCert] *)

Definition set_ips c v := mkCert c.(SerialNumber) c.(Subject) c.(CertPublicKey)
  c.(SubjectKeyId) c.(IsCA) v c.(EmailAddresses) c.(URIs) c.(DNSNames) c.(ExtKeyUsages).
Definition set_emails c v := mkCert c.(SerialNumber) c.(Subject) c.(CertPublicKey)
  c.(SubjectKeyId) c.(IsCA) c.(IPAddresses) v c.(URIs) c.(DNSNames) c.(ExtKeyUsages).
Definition set_uris c v := mkCert c.(SerialNumber) c.(Subject) c.(CertPublicKey)
  c.(SubjectKeyId) c.(IsCA) c.(IPAddresses) c.(EmailAddresses) v c.(DNSNames) c.(ExtKeyUsages).
Definition set_dns c v := mkCert c.(SerialNumber) c.(Subject) c.(CertPublicKey)
  c.(SubjectKeyId) c.(IsCA) c.(IPAddresses) c.(EmailAddresses) c.(URIs) v c.(ExtKeyUsages).
Definition set_eku c v := mkCert c.(SerialNumber) c.(Subject) c.(CertPublicKey)
  c.(SubjectKeyId) c.(IsCA) c.(IPAddresses) c.(EmailAddresses) c.(URIs) c.(DNSNames) v.
Definition set_cn c cn := mkCert c.(SerialNumber)
  (mkName c.(Subject).(Organization) c.(Subject).(OrganizationalUnit) cn)
  c.(CertPublicKey) c.(SubjectKeyId) c.(IsCA) c.(IPAddresses) c.(EmailAddresses)
  c.(URIs) c.(DNSNames) c.(ExtKeyUsages).

(** One iteration of the loop over [hosts] (zcert.go, lines 284-294). *)
Definition add_host (tpl : Certificate) (h : string) : Certificate :=
  match ParseIP h with
  | Some ip => set_ips tpl (tpl.(IPAddresses) ++ [ip])
  | None =>
    match ParseAddress h with
    | Some addr => if String.eqb addr h
                   then set_emails tpl (tpl.(EmailAddresses) ++ [h])
                   else
                   match ParseURL h with
                   | Some u => if negb (String.eqb u.(Scheme) "") && negb (String.eqb u.(Host) "")
                               then set_uris tpl (tpl.(URIs) ++ [u])
                               else set_dns tpl (tpl.(DNSNames) ++ [h])
                   | None => set_dns tpl (tpl.(DNSNames) ++ [h])
                   end
    | None =>
        match ParseURL h with
        | Some u => if negb (String.eqb u.(Scheme) "") && negb (String.eqb u.(Host) "")
                    then set_uris tpl (tpl.(URIs) ++ [u])
                    else set_dns tpl (tpl.(DNSNames) ++ [h])
        | None => set_dns tpl (tpl.(DNSNames) ++ [h])
        end
    end
  end.

Definition add_hosts (tpl : Certificate) (hosts : list string) : Certificate :=
  fold_left add_host hosts tpl.

(** What the process around a [MakeCert] call supplies: the root already
    held by the [CARoot] value, or what [Load] gives; the random draws of
    [randomSerialNumber] and [generateKey]; whether [CreateCertificate]
    and the two [out.Write] calls succeed. *)
Record mc_env := mkEnv {
  env_root : option (Certificate * PrivateKey);
  env_load : option (Certificate * PrivateKey);
  env_serial : option Z;
  env_key : option PrivateKey;
  env_sign_ok : bool;
  env_write1_ok : bool;
  env_write2_ok : bool }.

(** [userAndHostname()] of the running process; its value plays no part
    in the properties below. *)
Definition user_and_hostname : string := "user@host".

(** The leaf template before the loop (zcert.go, lines 270-282). *)
Definition leaf_template (serial : Z) : Certificate :=
  mkCert serial (mkName ["zcert development certificate"] [user_and_hostname] "")
    None None false [] [] [] [] [].

(** A PEM block written to [out]: the PKCS#8 key, then the DER of the
    leaf, signed by [issuer]'s key. *)
Inductive pem_block :=
  | KeyBlock (k : PrivateKey)
  | CertBlock (leaf : Certificate) (issuer : Certificate) (signer : PrivateKey).

Definition MakeCert (env : mc_env) (clientCert : bool) (hosts : list string)
    : outcome (list pem_block) :=
  match (match env.(env_root) with
         | Some r => Some r
         | None => env.(env_load)
         end) with
  | None => Err "zcert.MakeCert: zcert.Load: CA certificate doesn't exist"
  | Some (cacert, cakey) =>
  match env.(env_serial) with
  | None => Err "zcert.MakeCert: generating serial number"
  | Some serial =>
  let tpl := add_hosts (leaf_template serial) hosts in
  let tpl_client :=
    if clientCert then
      match hosts with
      | [] => None
      | h0 :: _ => Some (set_cn (set_eku tpl [ExtKeyUsageClientAuth; ExtKeyUsageServerAuth]) h0)
      end
    else if negb (bool_decide (tpl.(IPAddresses) = [])) || negb (bool_decide (tpl.(DNSNames) = []))
    then Some (set_eku tpl [ExtKeyUsageServerAuth])
    else Some tpl in
  match tpl_client with
  | None => Panic "runtime error: index out of range [0] with length 0"
  | Some tpl1 =>
  let tpl2 := if bool_decide (tpl1.(EmailAddresses) = []) then tpl1
              else set_eku tpl1 (tpl1.(ExtKeyUsages) ++
                                 [ExtKeyUsageCodeSigning; ExtKeyUsageEmailProtection]) in
  match env.(env_key) with
  | None => Err "zcert.MakeCert: generating private key"
  | Some priv =>
  let leaf := mkCert tpl2.(SerialNumber) tpl2.(Subject) (Some (Public priv))
                tpl2.(SubjectKeyId) tpl2.(IsCA) tpl2.(IPAddresses) tpl2.(EmailAddresses)
                tpl2.(URIs) tpl2.(DNSNames) tpl2.(ExtKeyUsages) in
  if negb env.(env_sign_ok) then Err "zcert.MakeCert: generating certificate" else
  if negb env.(env_write1_ok) then Err "zcert.MakeCert: write private key" else
  if negb env.(env_write2_ok) then Err "zcert.MakeCert: write certificate key" else
  Ok [KeyBlock priv; CertBlock leaf cacert cakey]
  end end end end.

(* ------------------------------------------------------------------ *)
(** ** [MakeTLSCert] and the [GetCertificate] callback of [TLSConfig] *)

(** [tls.Certificate]: the leaf and its private key. *)
Record TLSCertificate := mkTLS { tls_leaf : Certificate; tls_key : PrivateKey }.

(** The pieces of [s] between the dots, left to right. *)
Fixpoint split_dot (s : string) (cur : string) : list string :=
  match s with
  | EmptyString => [cur]
  | String c s' =>
      if Ascii.eqb c "."%char then cur :: split_dot s' EmptyString
      else split_dot s' (cur ++ String c EmptyString)%string
  end.

(** [domainToReverseLabels] (crypto/x509): the labels of a non-empty
    domain, last one first, are the pieces between its dots; it fails on
    an empty label (a trailing dot included) and on a character outside
    33-126 (a byte of 128 or more starts a rune above 126). *)
Definition domainToReverseLabels (domain : string) : option (list string) :=
  if String.eqb domain "" then Some [] else
  let reverseLabels := rev (split_dot domain "") in
  if forallb (fun label => negb (String.eqb label "") &&
                 forallb (fun c => (33 <=? code c)%nat && (code c <=? 126)%nat)
                         (list_ascii_of_string label)) reverseLabels
  then Some reverseLabels else None.

(** Whether [x509.ParseCertificate] refuses a URI name: [parseSANExtension]
    re-parses the name, and a non-empty host must pass
    [domainToReverseLabels]. The re-parse of [uri.String()] gives back
    the host of the [url.URL] the leaf was built from. *)
Definition bad_uri_host (u : URL) : bool :=
  negb (String.eqb u.(Host) "") &&
  match domainToReverseLabels u.(Host) with Some _ => false | None => true end.

(** [x509.ParseCertificate] of a well-formed DER, as [CreateCertificate]
    produces: only the URI check of [parseSANExtension] can fail
    ([CreateCertificate] already refused names that are not IA5 strings).
    The quoted URI of the message is left out. *)
Definition ParseCertificate (der : Certificate) : outcome Certificate :=
  if existsb bad_uri_host der.(URIs)
  then Err "x509: cannot parse URI: invalid domain"
  else Ok der.

(** [tls.X509KeyPair(out, out)] on what [MakeCert] wrote: the first
    CERTIFICATE block and the PRIVATE KEY block; the certificate is
    parsed with [x509.ParseCertificate], and its public key must match
    the private key's. *)
Definition X509KeyPair (blocks : list pem_block) : outcome TLSCertificate :=
  match blocks with
  | [KeyBlock k; CertBlock leaf _ _] =>
      match ParseCertificate leaf with
      | Ok x509Cert =>
          if bool_decide (x509Cert.(CertPublicKey) = Some (Public k))
          then Ok (mkTLS leaf k)
          else Err "tls: private key does not match public key"
      | Err e => Err e
      | Panic e => Panic e
      | Fatal e => Fatal e
      end
  | _ => Err "tls: failed to find any PEM data"
  end.

Definition MakeTLSCert (env : mc_env) (clientCert : bool) (hosts : list string)
    : outcome TLSCertificate :=
  match MakeCert env clientCert hosts with
  | Ok blocks =>
      match X509KeyPair blocks with
      | Ok t => Ok t
      | Err e => Err ("zcert.MakeTLSCert: " ++ e)%string
      | Panic e => Panic e
      | Fatal e => Fatal e
      end
  | Err e => Err e
  | Panic e => Panic e
  | Fatal e => Fatal e
  end.

(** The state the callback closes over: the [certs] map from server name
    to [*tls.Certificate], the heap the pointers point into (a pointer is
    an index into [heap]; [&t] allocates at the end), and the log of the
    [MakeTLSCert] calls made so far. *)
Record tls_state := mkTLSState {
  certs : gmap string nat;
  heap : list TLSCertificate;
  calls : list (bool * list string) }.

(** [TLSConfig()] starts with an empty map. *)
Definition tls_init : tls_state := mkTLSState ∅ [] [].

(** [tlsc.GetCertificate] for [hello.ServerName = name]; [envs k] is the
    environment of the [k]-th issuance (fresh random draws each time). *)
Definition GetCertificate (envs : nat -> mc_env) (name : string) (st : tls_state)
    : outcome nat * tls_state :=
  match st.(certs) !! name with
  | Some c => (Ok c, st)
  | None =>
      let k := List.length st.(calls) in
      let calls' := st.(calls) ++ [(false, [name])] in
      match MakeTLSCert (envs k) false [name] with
      | Ok t =>
          let p := List.length st.(heap) in
          (Ok p, mkTLSState (<[name := p]> st.(certs)) (st.(heap) ++ [t]) calls')
      | Err e => (Err e, mkTLSState st.(certs) st.(heap) calls')
      | Panic e => (Panic e, mkTLSState st.(certs) st.(heap) calls')
      | Fatal e => (Fatal e, mkTLSState st.(certs) st.(heap) calls')
      end
  end.

(** Reachable callback states: pointers in the map are allocated, and
    no two names share one. *)
Definition tls_wf (st : tls_state) : Prop :=
  (forall n p, st.(certs) !! n = Some p -> p < List.length st.(heap)) /\
  (forall n1 n2 p, st.(certs) !! n1 = Some p -> st.(certs) !! n2 = Some p -> n1 = n2).

(* ------------------------------------------------------------------ *)
(** ** The file system, [StorePath] and the root's lifecycle *)

(** A path is its list of components; [[]] is "/". *)
Definition path := list string.

(** File contents the root code reads and writes: a PEM CERTIFICATE block
    (its DER, i.e. the encoded certificate), a PEM PRIVATE KEY block
    (PKCS#8 of the key), or anything else. *)
Inductive file_data :=
  | PemCertificate (der : Certificate)
  | PemPrivateKey (k : PrivateKey)
  | OtherData (s : string).

Record file := mkFile { fdata : file_data; fmode : N }.

Record fs := mkFS { files : gmap path file; dirs : gset path }.

Definition parent (p : path) : path := removelast p.

(** [os.Stat(p) == nil]. *)
Definition pathExists (f : fs) (p : path) : bool :=
  bool_decide (is_Some (f.(files) !! p)) || bool_decide (p ∈ f.(dirs)).

(** [ioutil.WriteFile(p, data, perm)]: the parent must be a directory;
    an existing file keeps its mode and must be writable by its owner,
    unless the process runs as root; a new file is created with
    [perm &^ umask]. Files are owned by the process. *)
Definition WriteFile (as_root : bool) (umask : N) (f : fs) (p : path) (d : file_data) (perm : N)
    : outcome fs :=
  if bool_decide (parent p ∉ f.(dirs)) then Err "open: no such file or directory"
  else if bool_decide (p ∈ f.(dirs)) then Err "open: is a directory"
  else match f.(files) !! p with
  | Some old =>
      if negb as_root && negb (N.testbit old.(fmode) 7)
      then Err "open: permission denied"
      else Ok (mkFS (<[p := mkFile d old.(fmode)]> f.(files)) f.(dirs))
  | None => Ok (mkFS (<[p := mkFile d (N.ldiff perm umask)]> f.(files)) f.(dirs))
  end.

(** Opening a file for reading: its owner-read bit (0400) is needed,
    unless the process runs as root. *)
Definition readable (as_root : bool) (fl : file) : bool :=
  as_root || N.testbit fl.(fmode) 8.

(** [os.Remove(p)]: a file, or an empty directory. *)
Definition Remove (f : fs) (p : path) : outcome fs :=
  if bool_decide (is_Some (f.(files) !! p)) then Ok (mkFS (delete p f.(files)) f.(dirs))
  else if bool_decide (p ∈ f.(dirs)) then
    if bool_decide (map_Exists (fun q _ => parent q = p) f.(files))
       || bool_decide (set_Exists (fun q => q <> p /\ parent q = p) f.(dirs))
    then Err "remove: directory not empty"
    else Ok (mkFS f.(files) (f.(dirs) ∖ {[p]}))
  else Err "remove: no such file or directory".

(** The ancestors of [p] and [p] itself. *)
Fixpoint prefixes (p : path) : list path :=
  match p with
  | [] => [[]]
  | c :: p' => [] :: map (cons c) (prefixes p')
  end.

(** [os.MkdirAll(p, 0755)]. *)
Definition MkdirAll (f : fs) (p : path) : outcome fs :=
  if existsb (fun q => bool_decide (is_Some (f.(files) !! q))) (prefixes p)
  then Err "mkdir: not a directory"
  else Ok (mkFS f.(files) (list_to_set (prefixes p) ∪ f.(dirs))).

(** The process environment [StorePath] reads, whether the process
    runs as root, and its umask. An unset variable is the empty string. *)
Record sysenv := mkSys {
  CAROOT : string; LocalAppData : string; XDG_DATA_HOME : string;
  HOME : string; GOOS : string; running_as_root : bool; umask : N }.

Fixpoint split_slash (s : string) (cur : string) : list string :=
  match s with
  | EmptyString => [cur]
  | String c s' =>
      if Ascii.eqb c "/"%char then cur :: split_slash s' EmptyString
      else split_slash s' (cur ++ String c EmptyString)%string
  end.

(** [filepath.Join]/[Clean] of a variable's value: its non-empty components. *)
Definition path_of (s : string) : path :=
  filter (fun c => negb (String.eqb c "")) (split_slash s "").

(** [StorePath()]: [None] is the [("", "")] result. *)
Definition StorePath (e : sysenv) : option (path * path) :=
  let dir :=
    if negb (String.eqb e.(CAROOT) "") then Some e.(CAROOT)
    else if String.eqb e.(GOOS) "windows" then Some e.(LocalAppData)
    else if negb (String.eqb e.(XDG_DATA_HOME) "") then Some e.(XDG_DATA_HOME)
    else if String.eqb e.(GOOS) "darwin" then
      if String.eqb e.(HOME) "" then None
      else Some (e.(HOME) ++ "/Library/Application Support")%string
    else if String.eqb e.(HOME) "" then None
    else Some (e.(HOME) ++ "/.local/share")%string in
  match dir with
  | None => None
  | Some d =>
      if String.eqb d "" then None
      else let z := path_of d ++ ["zcert"] in
           Some (z ++ ["rootCA.pem"], z ++ ["rootCA-key.pem"])
  end.

(** The [CARoot] value: its [cert] and [key] fields ([None] is nil). *)
Record CARoot := mkCA { cert : option Certificate; key : option PrivateKey }.

Definition ca_empty : CARoot := mkCA None None.

(** [Exists()]: only the certificate path is tested. *)
Definition Exists (e : sysenv) (f : fs) : bool :=
  match StorePath e with
  | Some (rootCert, _) => pathExists f rootCert
  | None => false (* [os.Stat("")] fails *)
  end.

(** The random draws and the signing result of one [Create]. *)
Record create_draws := mkDraws {
  cd_key : option PrivateKey; cd_serial : option Z; cd_sign_ok : bool }.

(** [CARoot.Create]. [SubjectKeyId] stands for the SHA-1 of the encoded
    public key, a function of it. [MarshalPKIXPublicKey], [asn1.Unmarshal]
    and [MarshalPKCS8PrivateKey] cannot fail on a P-256 key and are not
    shown. The DER written is the template with the public key passed to
    [CreateCertificate]; the value kept in [ca.cert] is [tpl] itself. *)
Definition Create (e : sysenv) (d : create_draws) (ca : CARoot) (f : fs)
    : outcome unit * CARoot * fs :=
  match StorePath e with
  | None => (Err "zcert.Create: can't find a location to store the root certificate; set CAROOT", ca, f)
  | Some (rootCert, rootKey) =>
  if Exists e f then (Err "zcert.Create: CA root already exists", ca, f) else
  match MkdirAll f (parent rootCert) with
  | Ok f1 =>
    match d.(cd_key) with
    | None => (Err "zcert.Create: generating private key", ca, f1)
    | Some priv =>
    let pub := Public priv in
    match d.(cd_serial) with
    | None => (Err "zcert.Create: generating serial number", ca, f1)
    | Some serial =>
    let tpl := mkCert serial
                 (mkName ["zcert development CA"] [user_and_hostname]
                         ("zcert " ++ user_and_hostname)%string)
                 None (Some pub) true [] [] [] [] [] in
    if negb d.(cd_sign_ok) then (Err "zcert.Create: generate CA certificate", ca, f1) else
    let der := mkCert tpl.(SerialNumber) tpl.(Subject) (Some pub) tpl.(SubjectKeyId)
                 tpl.(IsCA) [] [] [] [] [] in
    match WriteFile e.(running_as_root) e.(umask) f1 rootKey (PemPrivateKey priv) 256%N with
    | Ok f2 =>
      match WriteFile e.(running_as_root) e.(umask) f2 rootCert (PemCertificate der) 420%N with
      | Ok f3 => (Ok tt, mkCA (Some tpl) (Some priv), f3)
      | _ => (Err "zcert.Create: save CA certificate", ca, f2)
      end
    | _ => (Err "zcert.Create: save CA key", ca, f1)
    end
    end end
  | _ => (Err "zcert.Create: mkdir", ca, f)
  end
  end.

(** [tls.LoadX509KeyPair(rootCert, rootKey)] followed by
    [x509.ParseCertificate] of its first certificate. The two
    [os.ReadFile] calls need the files to be readable. *)
Definition LoadX509KeyPair (as_root : bool) (f : fs) (certFile keyFile : path)
    : outcome (Certificate * PrivateKey) :=
  match f.(files) !! certFile with
  | None => Err "open: no such file or directory"
  | Some cf =>
    if negb (readable as_root cf) then Err "open: permission denied" else
    match cf.(fdata) with
    | PemCertificate der =>
      match f.(files) !! keyFile with
      | None => Err "open: no such file or directory"
      | Some kf =>
        if negb (readable as_root kf) then Err "open: permission denied" else
        match kf.(fdata) with
        | PemPrivateKey k =>
            match ParseCertificate der with
            | Ok pc =>
                if bool_decide (pc.(CertPublicKey) = Some (Public k)) then Ok (pc, k)
                else Err "tls: private key does not match public key"
            | Err e => Err e
            | Panic e => Panic e
            | Fatal e => Fatal e
            end
        | _ => Err "tls: failed to find any PEM data in key input"
        end
      end
    | _ => Err "tls: failed to find any PEM data in certificate input"
    end
  end.

(** [CARoot.Load]. *)
Definition Load (e : sysenv) (ca : CARoot) (f : fs) : outcome unit * CARoot :=
  if negb (Exists e f) then (Err "zcert.Load: CA certificate doesn't exist", ca) else
  match StorePath e with
  | None => (Err "zcert.Load: CA certificate doesn't exist", ca)
  | Some (rootCert, rootKey) =>
      match LoadX509KeyPair e.(running_as_root) f rootCert rootKey with
      | Ok (pc, k) => (Ok tt, mkCA (Some pc) (Some k))
      | _ => (Err "zcert.Load: tls", ca)
      end
  end.

(** [CARoot.Delete] (a value receiver: the [CARoot] is not changed). *)
Definition Delete (e : sysenv) (f : fs) : outcome unit * fs :=
  if negb (Exists e f) then (Ok tt, f) else
  match StorePath e with
  | None => (Ok tt, f)
  | Some (rootCert, rootKey) =>
      match Remove f rootCert with
      | Ok f1 =>
          match Remove f1 rootKey with
          | Ok f2 =>
              match Remove f2 (parent rootCert) with
              | Ok f3 => (Ok tt, f3)
              | _ => (Err "zcert.Delete: remove dir", f2)
              end
          | _ => (Err "zcert.Delete: remove key", f1)
          end
      | _ => (Err "zcert.Delete: remove cert", f)
      end
  end.

(** [New()]: a zero [CARoot], then [Create] or [Load]. *)
Definition New (e : sysenv) (d : create_draws) (f : fs)
    : CARoot * bool * outcome unit * fs :=
  if negb (Exists e f) then
    let '(err, ca, f') := Create e d ca_empty f in (ca, true, err, f')
  else
    let '(err, ca) := Load e ca_empty f in (ca, false, err, f).

(* ------------------------------------------------------------------ *)
(** ** [Group] (copy of zgo.at/errors) and the trust-store fan-out *)

Record Group := mkGroup { MaxSize : nat; errs : list string; nerrs : nat }.

Definition NewGroup (maxSize : nat) : Group := mkGroup maxSize [] 0.

(** [Group.Append]: a nil error ([None]) is not recorded. *)
Definition Append (g : Group) (err : option string) : bool * Group :=
  match err with
  | None => (false, g)
  | Some e =>
      let g' := if (g.(MaxSize) =? 0)%nat || (List.length g.(errs) <? g.(MaxSize))%nat
                then mkGroup g.(MaxSize) (g.(errs) ++ [e]) (S g.(nerrs))
                else mkGroup g.(MaxSize) g.(errs) (S g.(nerrs)) in
      (true, g')
  end.

(** A Go [error] value: a plain error or a [*Group]; [None] is nil. *)
Inductive goerror := EString (s : string) | EGroup (g : Group).

(** [Group.ErrorOrNil]. *)
Definition ErrorOrNil (g : Group) : option goerror :=
  if (List.length g.(errs) =? 0)%nat then None else Some (EGroup g).

Inductive StoreKind := NSS | Java | Unix | Darwin | Windows.

(** [truststore.Find]: the stores of the fixed list whose [OnSystem()]
    holds, in that order ([storeEnabled] is always nil). *)
Definition Find (onSystem : StoreKind -> bool) : list StoreKind :=
  filter (fun s => onSystem s) [NSS; Java; Unix; Darwin; Windows].

(** The loop of [CARoot.Install]/[Uninstall]: [op s] is what the store's
    [Install] (or [Uninstall]) returns; the stores called are logged. *)
Fixpoint fan_out (op : StoreKind -> option string) (stores : list StoreKind)
    (g : Group) (called : list StoreKind) : Group * list StoreKind :=
  match stores with
  | [] => (g, called)
  | s :: rest => fan_out op rest (snd (Append g (op s))) (called ++ [s])
  end.

(** [CARoot.Install] ([Uninstall] is the same code with the stores'
    [Uninstall]): load the root if needed, find the stores, call each. *)
Definition InstallAll (e : sysenv) (ca : CARoot) (f : fs)
    (onSystem : StoreKind -> bool) (op : StoreKind -> option string)
    : option goerror * list StoreKind :=
  let loaded :=
    match ca.(cert) with
    | Some _ => Ok tt
    | None => fst (Load e ca f)
    end in
  match loaded with
  | Ok _ =>
      let stores := Find onSystem in
      match stores with
      | [] => (Some (EString "no compatible truststores found"), [])
      | _ => let '(g, called) := fan_out op stores (NewGroup 0) [] in
             (ErrorOrNil g, called)
      end
  | Err m | Panic m | Fatal m => (Some (EString m), [])
  end.

(* ------------------------------------------------------------------ *)
(** ** The Windows ROOT store: [Windows.Uninstall] *)

(** An entry of the store: its encoding parses to a certificate or not. *)
Definition win_entry := option Certificate.

(** How the native calls behave: opening the store, duplicating and
    deleting a context, and the error the enumeration ends with
    ([None] is CRYPT_E_NOT_FOUND, the normal end). *)
Record win_env := mkWinEnv {
  win_open_ok : bool; win_dup_ok : bool; win_delete_ok : bool;
  win_enum_end : option string }.

(** [deleteCertsWithSerial]: returns [deletedAny], the error, and the
    entries left in the store. *)
Fixpoint deleteCertsWithSerial (w : win_env) (serial : Z) (store : list win_entry)
    (deletedAny : bool) : bool * option string * list win_entry :=
  match store with
  | [] =>
      match w.(win_enum_end) with
      | None => (deletedAny, None, [])
      | Some e => (deletedAny, Some ("enumerating certs: " ++ e)%string, [])
      end
  | c :: rest =>
      match c with
      | Some pc =>
          if (pc.(SerialNumber) =? serial)%Z then
            if negb w.(win_dup_ok) then (deletedAny, Some "duplicating context", store)
            else if negb w.(win_delete_ok) then (deletedAny, Some "deleting certificate", store)
            else deleteCertsWithSerial w serial rest true
          else let '(d, err, kept) := deleteCertsWithSerial w serial rest deletedAny in
               (d, err, c :: kept)
      | None => let '(d, err, kept) := deleteCertsWithSerial w serial rest deletedAny in
                (d, err, c :: kept)
      end
  end.

(** [Windows.Uninstall] (ts_nonunix.go, lines 86-102). *)
Definition Windows_Uninstall (w : win_env) (caCert : Certificate) (store : list win_entry)
    : option string * list win_entry :=
  if negb w.(win_open_ok) then (Some "truststore.Windows: open root store", store) else
  let '(deletedAny, err, kept) := deleteCertsWithSerial w caCert.(SerialNumber) store false in
  match err with
  | Some e => (Some ("truststore.Windows: delete cert: " ++ e)%string, kept)
  | None =>
      let err' := if negb deletedAny then Some "truststore.Windows: no certs found" else None in
      let _ := err' in
      (None, kept)
  end.

(* ------------------------------------------------------------------ *)
(** ** The macOS System keychain: [Darwin.Install] *)

(** A property-list value as [plist.Unmarshal] decodes it into
    [interface{}]: integers become [uint64], dictionaries
    [map[string]interface{}], data [[]byte]. *)
Local Set Warnings "-register-all".
Inductive pvalue :=
  | PUint (n : N) | PString (s : string) | PData (b : list Z) | PBool (b : bool)
  | PArray (l : list pvalue) | PDict (d : list (string * pvalue)).

Definition dict_get (d : list (string * pvalue)) (k : string) : option pvalue :=
  option_map snd (List.find (fun kv => String.eqb (fst kv) k) d).

Definition dict_set (d : list (string * pvalue)) (k : string) (v : pvalue)
    : list (string * pvalue) :=
  if existsb (fun kv => String.eqb (fst kv) k) d
  then map (fun kv => if String.eqb (fst kv) k then (k, v) else kv) d
  else d ++ [(k, v)].

(** [trustSettings]: the fragment injected into the matching entry. *)
Definition trustSettings : pvalue :=
  PArray [PDict [("kSecTrustSettingsPolicyName", PString "sslServer");
                 ("kSecTrustSettingsResult", PUint 1)];
          PDict [("kSecTrustSettingsPolicyName", PString "basicX509");
                 ("kSecTrustSettingsResult", PUint 1)]].

(** What [Install] meets: whether each [security] run, the temp file,
    the read, the re-encoding and the write succeed, and the exported
    trust settings as [plist.Unmarshal] decodes them into [plistRoot]
    ([None]: the data does not parse, and [plistRoot] stays a nil map).
    The entries of [trustList] are listed in the order Go's map
    iteration visits them. *)
Record darwin_env := mkDarwinEnv {
  dw_add_ok : bool; dw_tempfile_ok : bool; dw_export_ok : bool; dw_read_ok : bool;
  dw_plist : option (list (string * pvalue));
  dw_marshal_ok : bool; dw_write_ok : bool; dw_import_ok : bool }.

(** [asn1.Marshal(caCert.Subject.ToRDNSequence())], as a byte string
    determined by the subject. *)
Definition subject_der (n : pkixName) : list Z :=
  map (fun c => Z.of_nat (nat_of_ascii c))
    (list_ascii_of_string (String.concat "," (n.(Organization) ++ n.(OrganizationalUnit)
                                               ++ [n.(CommonName)]))).

(** The loop over [trustList]: skip entries without [issuerName], patch
    the first whose issuer matches, then stop. A failed type assertion
    panics. *)
Fixpoint patch_trust_list (subj : list Z) (l : list (string * pvalue))
    : outcome (list (string * pvalue)) :=
  match l with
  | [] => Ok []
  | (k, v) :: rest =>
      match v with
      | PDict entry =>
          match dict_get entry "issuerName" with
          | None => match patch_trust_list subj rest with
                    | Ok r => Ok ((k, v) :: r) | o => o end
          | Some (PData issuer) =>
              if bool_decide (subj = issuer)
              then Ok ((k, PDict (dict_set entry "trustSettings" trustSettings)) :: rest)
              else match patch_trust_list subj rest with
                   | Ok r => Ok ((k, v) :: r) | o => o end
          | Some _ => Panic "interface conversion: interface {} is not []uint8"
          end
      | _ => Panic "interface conversion: interface {} is not map[string]interface {}"
      end
  end.

(** [Darwin.Install] (ts_darwin.go, lines 141-210); the result is the
    re-imported property list. *)
Definition Darwin_Install (d : darwin_env) (caCert : Certificate)
    : outcome (list (string * pvalue)) :=
  if negb d.(dw_add_ok) then Err "exit status 1" else
  if negb d.(dw_tempfile_ok) then Err "open temp file" else
  if negb d.(dw_export_ok) then Err "exit status 1" else
  if negb d.(dw_read_ok) then Err "read trust settings" else
  (* the parse error is formatted and dropped: [plistRoot] stays nil *)
  let plistRoot := match d.(dw_plist) with Some r => r | None => [] end in
  let rootSubjectASN1 := subject_der caCert.(Subject) in
  match dict_get plistRoot "trustVersion" with
  | Some (PUint v) =>
      if negb (v =? 1)%N then Fatal "ERROR: unsupported trust settings version:" else
      match dict_get plistRoot "trustList" with
      | Some (PDict trustList) =>
          match patch_trust_list rootSubjectASN1 trustList with
          | Ok tl =>
              let root' := dict_set plistRoot "trustList" (PDict tl) in
              if negb d.(dw_marshal_ok) then Err "plist marshal" else
              if negb d.(dw_write_ok) then Err "write trust settings" else
              if negb d.(dw_import_ok) then Err "exit status 1" else
              Ok root'
          | Err m => Err m | Panic m => Panic m | Fatal m => Fatal m
          end
      | _ => Panic "interface conversion: interface {} is not map[string]interface {}"
      end
  | _ => Panic "interface conversion: interface {} is not uint64"
  end.

(* ------------------------------------------------------------------ *)
(** ** [privCmd] and the retrying tool runners *)

(** An [*exec.Cmd]: the program run and its argv (with [Args[0]]), and
    its environment when it is set ([None]: the parent's). *)
Record Cmd := mkCmd { CmdPath : string; CmdArgs : list string; CmdEnv : option (list string) }.

(** The machine: [user.Current()] (its Uid, [None] on error), which
    binaries [exec.LookPath] finds and where, [runtime.GOOS], and how a
    command run goes (its combined output and whether it failed). *)
Record machine := mkMachine {
  m_uid : option string;
  m_lookpath : string -> option string;
  m_goos : string;
  m_run : Cmd -> string * bool }.

(** Process state: [privWarning] (a [sync.Once]) has fired, the commands
    run so far, and what was written to stderr. *)
Record pstate := mkPState { warned : bool; ran : list Cmd; stderr : list string }.

(** [exec.Command(name, args...)]: a name with a separator is used as is,
    any other is looked up in PATH. *)
Definition Command (m : machine) (name : string) (args : list string) : Cmd :=
  let p := if str_elem "/"%char name then name
           else match m.(m_lookpath) name with Some q => q | None => name end in
  mkCmd p (name :: args) None.

Definition binaryExists (m : machine) (name : string) : bool :=
  match m.(m_lookpath) name with Some _ => true | None => false end.

Definition privWarningText : string :=
  "zcert: sudo or doas not available and not running as root; the (un)install might fail".

(** [privCmd(cmd...)] (truststore.go, lines 60-76). *)
Definition privCmd (m : machine) (cmd : list string) (st : pstate) : Cmd * pstate :=
  let name := hd "" cmd in
  let args := tl cmd in
  if bool_decide (m.(m_uid) = Some "0") then (Command m name args, st)
  else if binaryExists m "sudo" then
    (Command m "sudo" (["--prompt=Sudo password:"; "--"] ++ cmd), st)
  else if binaryExists m "doas" then
    (Command m "doas" (["--"] ++ cmd), st)
  else
    let st' := if st.(warned) then st
               else mkPState true st.(ran) (st.(stderr) ++ [privWarningText]) in
    (Command m name args, st').

(** [cmd.CombinedOutput()]: the run is logged. *)
Definition CombinedOutput (m : machine) (c : Cmd) (st : pstate) : string * bool * pstate :=
  let '(out, failed) := m.(m_run) c in
  (out, failed, mkPState st.(warned) (st.(ran) ++ [c]) st.(stderr)).

(** The shared shape of [NSS.execCertutil] and [Java.execKeytool]: run,
    and on a failure whose output contains [marker] (not on Windows)
    re-run [privCmd(cmd.Path)] with the original arguments appended;
    [retryEnv] is the environment the retry sets. *)
Definition execRetry (marker : string) (retryEnv : option (list string))
    (m : machine) (c : Cmd) (st : pstate) : string * bool * pstate :=
  let '(out, failed, st1) := CombinedOutput m c st in
  if failed && str_contains out marker && negb (String.eqb m.(m_goos) "windows") then
    let origArgs := tl c.(CmdArgs) in
    let '(c', st2) := privCmd m [c.(CmdPath)] st1 in
    let c'' := mkCmd c'.(CmdPath) (c'.(CmdArgs) ++ origArgs)
                     (match retryEnv with Some e => Some e | None => c'.(CmdEnv) end) in
    CombinedOutput m c'' st2
  else (out, failed, st1).

(** [NSS.execCertutil] (nss.go, lines 120-131). *)
Definition execCertutil (m : machine) (c : Cmd) (st : pstate) : string * bool * pstate :=
  execRetry "SEC_ERROR_READ_ONLY" None m c st.

(** [Java.execKeytool] (ts_nonwindows.go): same retry, with marker
    [java.io.FileNotFoundException] and [Env = JAVA_HOME=...]; its error
    wrapping is left out. *)
Definition execKeytool (javaHome : string) (m : machine) (c : Cmd) (st : pstate)
    : string * bool * pstate :=
  execRetry "java.io.FileNotFoundException" (Some [("JAVA_HOME=" ++ javaHome)%string]) m c st.

(** The wrapper the retry uses for a program [p] with arguments [args]. *)
Definition escalated (m : machine) (p : string) (args : list string) : Cmd :=
  if bool_decide (m.(m_uid) = Some "0") then Command m p args
  else if binaryExists m "sudo" then Command m "sudo" (["--prompt=Sudo password:"; "--"; p] ++ args)
  else if binaryExists m "doas" then Command m "doas" (["--"; p] ++ args)
  else Command m p args.

(* ------------------------------------------------------------------ *)
(** ** Classification of the requested names, as the spec words it *)

Inductive SAN := SanIP (ip : list Z) | SanEmail (e : string) | SanURI (u : URL)
               | SanDNS (d : string).

(** IP literal, else exact-match email, else URI with scheme and host,
    else DNS name. *)
Definition spec_classify (h : string) : SAN :=
  match ParseIP h with
  | Some ip => SanIP ip
  | None =>
      if match ParseAddress h with Some a => String.eqb a h | None => false end
      then SanEmail h
      else match ParseURL h with
           | Some u => if negb (String.eqb u.(Scheme) "") && negb (String.eqb u.(Host) "")
                       then SanURI u else SanDNS h
           | None => SanDNS h
           end
  end.

Definition san_ip (s : SAN) := match s with SanIP ip => Some ip | _ => None end.
Definition san_email (s : SAN) := match s with SanEmail e => Some e | _ => None end.
Definition san_uri (s : SAN) := match s with SanURI u => Some u | _ => None end.
Definition san_dns (s : SAN) := match s with SanDNS d => Some d | _ => None end.

(** The part of a leaf the classification does not touch. *)
Definition leaf_rest (c : Certificate) :=
  (c.(SerialNumber), c.(Subject), c.(CertPublicKey), c.(SubjectKeyId), c.(IsCA),
   c.(ExtKeyUsages)).

(* ------------------------------------------------------------------ *)
(** ** Concrete inputs and process runs used below *)

(** A process where the root is held and every draw, the signing and
    the writes succeed. *)
Definition env_all_ok : mc_env :=
  mkEnv (Some (mkCert 7 (mkName ["zcert development CA"] [user_and_hostname] "zcert")
                 None (Some (Public 11%Z)) true [] [] [] [] [], 11%Z))
        None (Some 42%Z) (Some 5%Z) true true true.

(** States the callback reaches from [TLSConfig()] by lookups. *)
Inductive tls_steps (envs : nat -> mc_env) : tls_state -> tls_state -> Prop :=
  | tls_steps_refl st : tls_steps envs st st
  | tls_steps_step st n r st' st'' :
      GetCertificate envs n st = (r, st') -> tls_steps envs st' st'' ->
      tls_steps envs st st''.

Definition envs_ok : nat -> mc_env := fun _ => env_all_ok.

Definition sys0 : sysenv := mkSys "/tmp/ca" "" "" "/home/u" "linux" false 18%N.
Definition draws0 : create_draws := mkDraws (Some 11%Z) (Some 7%Z) true.
Definition fs0 : fs := mkFS ∅ {[ [] ]}.
Definition ca_dir : path := ["tmp"; "ca"; "zcert"].
Definition ca_cert_path : path := ca_dir ++ ["rootCA.pem"].
Definition ca_key_path : path := ca_dir ++ ["rootCA-key.pem"].

(** A certificate file and a key file for [sys0], and a third file next to
    them. *)
Definition fs_extra : fs :=
  mkFS (<[ca_cert_path := mkFile (OtherData "cert") 420%N]>
        (<[ca_key_path := mkFile (OtherData "key") 256%N]>
         {[ ca_dir ++ ["notes.txt"] := mkFile (OtherData "notes") 420%N ]}))
       (list_to_set (prefixes ca_dir)).

(** Both root files for [sys0], alone in their directory. *)
Definition fs_both : fs :=
  mkFS (<[ca_cert_path := mkFile (OtherData "cert") 420%N]>
        {[ ca_key_path := mkFile (OtherData "key") 256%N ]})
       (list_to_set (prefixes ca_dir)).

(** Only the key file for [sys0], in its directory. *)
Definition fs_key_only : fs :=
  mkFS {[ ca_key_path := mkFile (PemPrivateKey 11%Z) 256%N ]}
       (list_to_set (prefixes ca_dir)).

(** A machine with the NSS and Unix stores, where NSS fails. *)
Definition onSystem_sample (s : StoreKind) : bool :=
  match s with NSS | Unix => true | _ => false end.

Definition op_sample (s : StoreKind) : option string :=
  match s with NSS => Some "certutil failed"%string | _ => None end.

Definition ca_sample : CARoot := snd (fst (Create sys0 draws0 ca_empty fs0)).

(** A root certificate with serial 7 and a Windows store holding one
    certificate with serial 5; all native calls succeed. *)
Definition win_ok : win_env := mkWinEnv true true true None.

Definition cert_with_serial (n : Z) : Certificate :=
  mkCert n (mkName [] [] "") None None true [] [] [] [] [].

(** [security] runs and file operations that all succeed, with the
    exported property list [r] ([None]: it does not parse). *)
Definition darwin_with (r : option (list (string * pvalue))) : darwin_env :=
  mkDarwinEnv true true true true r true true true.

(** No way to escalate: not root, and neither [sudo] nor [doas] found. *)
Definition no_escalation (m : machine) : bool :=
  negb (bool_decide (m.(m_uid) = Some "0")) && negb (binaryExists m "sudo")
  && negb (binaryExists m "doas").

(** The command a retry runs: [c]'s program and arguments, wrapped. *)
Definition retry_cmd (m : machine) (retryEnv : option (list string)) (c : Cmd) : Cmd :=
  let e := escalated m c.(CmdPath) (tl c.(CmdArgs)) in
  mkCmd e.(CmdPath) e.(CmdArgs) (match retryEnv with Some v => Some v | None => e.(CmdEnv) end).

(** The process at start: no warning, nothing run. *)
Definition pstate0 : pstate := mkPState false [] [].

(** Any sequence of [privCmd] calls, command runs and retrying tool runs
    of one process. *)
Inductive proc_steps (m : machine) : pstate -> pstate -> Prop :=
  | ps_refl st : proc_steps m st st
  | ps_priv st st' cmd : proc_steps m st st' -> proc_steps m st (snd (privCmd m cmd st'))
  | ps_run st st' c : proc_steps m st st' -> proc_steps m st (snd (CombinedOutput m c st'))
  | ps_exec st st' marker env c :
      proc_steps m st st' -> proc_steps m st (snd (execRetry marker env m c st')).

(** A machine without [sudo] and [doas], not root, where every run fails
    with the NSS read-only error. *)
Definition m_noesc : machine :=
  mkMachine (Some "1000") (fun n => if String.eqb n "certutil" then Some "/usr/bin/certutil" else None)
            "linux" (fun _ => ("SEC_ERROR_READ_ONLY"%string, true)).

Definition certutil_cmd : Cmd := Command m_noesc "certutil" ["-A"; "-d"; "sql:/home/u/.pki/nssdb"].

(* ------------------------------------------------------------------ *)
(** ** [Group.Error] and appending in a loop *)

Definition newline : string := String (ascii_of_nat 10) EmptyString.

(** [Group.Error]: each recorded error followed by a newline. *)
Definition Group_Error (g : Group) : string :=
  if (List.length g.(errs) =? 0)%nat then ""
  else String.concat "" (map (fun e => (e ++ newline)%string) g.(errs)).

(** [errs.Append(err)] called on each error of a loop in turn. *)
Definition append_all (g : Group) (es : list (option string)) : Group :=
  fold_left (fun g e => snd (Append g e)) es g.

(* ------------------------------------------------------------------ *)
(** ** [safePath] of the command-line tool *)

Definition nul : ascii := ascii_of_nat 0.

(** [strings.NewReplacer("..", "", "/", "", "\\", "", "\x00", "").Replace]:
    the generic replacer scans left to right, replaces a match and goes
    on after it, without rescanning the output. At one position at most
    one of the four patterns can match (they start with different bytes). *)
Fixpoint safePath (s : string) : string :=
  match s with
  | EmptyString => EmptyString
  | String c rest =>
      if Ascii.eqb c "." then
        match rest with
        | String c2 rest2 => if Ascii.eqb c2 "." then safePath rest2
                             else String c (safePath rest)
        | EmptyString => String c EmptyString
        end
      else if Ascii.eqb c "/" || Ascii.eqb c "\" || Ascii.eqb c nul then safePath rest
      else String c (safePath rest)
  end.

(* ------------------------------------------------------------------ *)
(** ** The NSS store: [forEachProfile], [HasCert], [Install], [Uninstall] *)

(** The candidate profiles ([filepath.Glob(firefoxProfile)] followed by
    [nssDBs]), which of them [os.Stat] finds to be directories, and which
    hold [cert9.db] or [cert8.db]. *)
Record nss_env := mkNSSEnv {
  nss_profiles : list string;
  nss_is_dir : string -> bool;
  nss_cert9 : string -> bool;
  nss_cert8 : string -> bool }.

(** The loop of [forEachProfile]: the callback's error for each profile
    argument is [f]; the result is [found], the error, and the arguments
    the callback was called with. *)
Fixpoint forEachProfile_go (ne : nss_env) (f : string -> option string)
    (ps : list string) (found : nat) : nat * option string * list string :=
  match ps with
  | [] => (found, None, [])
  | p :: rest =>
      if negb (nss_is_dir ne p) then forEachProfile_go ne f rest found
      else if nss_cert9 ne p then
        let a := ("sql:" ++ p)%string in
        match f a with
        | Some e => (0, Some e, [a])
        | None => let '(n, err, cs) := forEachProfile_go ne f rest (S found) in (n, err, a :: cs)
        end
      else if nss_cert8 ne p then
        let a := ("dbm:" ++ p)%string in
        match f a with
        | Some e => (0, Some e, [a])
        | None => let '(n, err, cs) := forEachProfile_go ne f rest (S found) in (n, err, a :: cs)
        end
      else forEachProfile_go ne f rest found
  end.

Definition forEachProfile (ne : nss_env) (f : string -> option string)
    : nat * option string * list string :=
  forEachProfile_go ne f ne.(nss_profiles) 0.

(** The argument the callback gets for a profile, if any. *)
Definition nss_arg (ne : nss_env) (p : string) : option string :=
  if negb (nss_is_dir ne p) then None
  else if nss_cert9 ne p then Some ("sql:" ++ p)%string
  else if nss_cert8 ne p then Some ("dbm:" ++ p)%string
  else None.

(** [NSS.HasCert]: [certutilV a] tells whether
    [certutil -V -d a -u L -n caName] fails. *)
Definition NSS_HasCert (ne : nss_env) (certutilV : string -> bool) : bool :=
  let '(p, err, _) := forEachProfile ne
       (fun prof => if certutilV prof then Some "exit status 255"%string else None) in
  match err with None => (0 <? p)%nat | Some _ => false end.

Definition dq : string := String (ascii_of_nat 34) EmptyString.

(** [NSS.Install]: [certutilA a] is what [execCertutil] gives for
    [certutil -A -d a -t C,, -n caName -i rootCert] (its output and
    whether it failed); [certutilV] is the [-V] check run afterwards. *)
Definition NSS_Install (ne : nss_env) (certutilA : string -> string * bool)
    (certutilV : string -> bool) : option string :=
  let '(p, err, _) := forEachProfile ne
       (fun prof => let '(out, failed) := certutilA prof in
                    if failed then Some ("certutil -A -d " ++ prof ++ ": " ++ out)%string
                    else None) in
  match err with
  | Some e => Some e
  | None =>
      if (p =? 0)%nat then Some "truststore.NSS: no security database found"%string
      else if NSS_HasCert ne certutilV then None
      else Some ("truststore.NSS: installing to " ++ dq ++ "TODO" ++ dq ++ " failed")%string
  end.

(** [NSS.Uninstall]: a profile where [-V] fails is skipped; otherwise
    [certutilD a] is what [execCertutil] gives for [certutil -D]. *)
Definition NSS_Uninstall (ne : nss_env) (certutilV : string -> bool)
    (certutilD : string -> string * bool) : option string :=
  snd (fst (forEachProfile ne
    (fun prof => if certutilV prof then None
                 else let '(out, failed) := certutilD prof in
                      if failed then Some ("certutil -D -d " ++ prof ++ ": " ++ out)%string
                      else None))).

(* ------------------------------------------------------------------ *)
(** ** The Unix system store *)

(** [trustFile, trustCmd]: the first of the known anchor directories that
    [pathExists] finds decides; none gives [("", nil)]. *)
Definition select_trust (exists_ : string -> bool) : string * option (list string) :=
  if exists_ "/etc/pki/ca-trust/source/anchors/" then
    ("/etc/pki/ca-trust/source/anchors/%s.pem", Some ["update-ca-trust"; "extract"])
  else if exists_ "/usr/local/share/ca-certificates/" then
    ("/usr/local/share/ca-certificates/%s.crt", Some ["update-ca-certificates"])
  else if exists_ "/etc/ca-certificates/trust-source/anchors/" then
    ("/etc/ca-certificates/trust-source/anchors/%s.crt", Some ["trust"; "extract-compat"])
  else if exists_ "/usr/share/pki/trust/anchors" then
    ("/usr/share/pki/trust/anchors/%s.pem", Some ["update-ca-certificates"])
  else if exists_ "/usr/share/ca-certificates/mozilla" then
    ("/usr/share/ca-certificates/mozilla/%s.crt", Some ["update-ca-certificates"])
  else ("", None).

(** [fmt.Sprintf(format, arg)] for a format with one [%s] verb. *)
Fixpoint sprintf1 (format arg : string) : string :=
  match format with
  | EmptyString => EmptyString
  | String c rest =>
      if Ascii.eqb c "%" then
        match rest with
        | String c2 rest2 => if Ascii.eqb c2 "s" then (arg ++ rest2)%string
                             else String c (sprintf1 rest arg)
        | EmptyString => String c EmptyString
        end
      else String c (sprintf1 rest arg)
  end.

(** [caName]: the serial in decimal ([big.Int.String]). *)
Definition caName (serial : Z) : string := ("zcert development CA " ++ pretty serial)%string.

(** [strings.ReplaceAll(s, " ", "_")]. *)
Definition space_to_underscore (s : string) : string :=
  str_map (fun c => if Ascii.eqb c " " then "_"%char else c) s.

(** [Unix.systemTrust]. *)
Definition systemTrust (trustFile : string) (serial : Z) : string :=
  sprintf1 trustFile (space_to_underscore (caName serial)).

(** [Unix.Install]: [read_ok] is whether [ioutil.ReadFile(rootCert)]
    succeeds; its bytes go to [tee]'s stdin, which is not shown. The
    output printed on a failure goes to stdout and is not shown. *)
Definition Unix_Install (m : machine) (trustFile : string) (trustCmd : option (list string))
    (read_ok : bool) (serial : Z) (st : pstate) : option string * pstate :=
  match trustCmd with
  | None => (Some "truststore.Unix: not yet supported on this Unix, but Firefox and Chrome/Chromium will still work"%string, st)
  | Some tc =>
    if negb read_ok then (Some "truststore.Unix: read root certificate"%string, st) else
    let '(c1, st1) := privCmd m ["tee"; systemTrust trustFile serial] st in
    let '(_, failed1, st2) := CombinedOutput m c1 st1 in
    if failed1 then (Some "truststore.Unix: exit status 1"%string, st2) else
    let '(c2, st3) := privCmd m tc st2 in
    let '(_, failed2, st4) := CombinedOutput m c2 st3 in
    if failed2 then (Some "truststore.Unix: exit status 1"%string, st4) else (None, st4)
  end.

(** [Unix.Uninstall]. *)
Definition Unix_Uninstall (m : machine) (trustFile : string) (trustCmd : option (list string))
    (serial : Z) (st : pstate) : option string * pstate :=
  match trustCmd with
  | None => (None, st)
  | Some tc =>
    let '(c1, st1) := privCmd m ["rm"; "-f"; systemTrust trustFile serial] st in
    let '(_, failed1, st2) := CombinedOutput m c1 st1 in
    if failed1 then (Some "truststore.Unix: exit status 1"%string, st2) else
    let '(c2, st3) := privCmd m tc st2 in
    let '(_, failed2, st4) := CombinedOutput m c2 st3 in
    if failed2 then (Some "truststore.Unix: exit status 1"%string, st4) else (None, st4)
  end.

(* ------------------------------------------------------------------ *)
(** ** The Java store: [Install] and [Uninstall] *)

(** [Java.Install]: [c] is the [keytool -importcert] command; the error
    is [execKeytool]'s, wrapped as "truststore.Java: ...". *)
Definition Java_Install (javaHome : string) (m : machine) (c : Cmd) (st : pstate)
    : option string * pstate :=
  let '(_, failed, st') := execKeytool javaHome m c st in
  (if failed then Some "truststore.Java: exit status 1"%string else None, st').

(** [Java.Uninstall]: [c] is the [keytool -delete] command. *)
Definition Java_Uninstall (javaHome : string) (m : machine) (c : Cmd) (st : pstate)
    : option string * pstate :=
  let '(out, failed, st') := execKeytool javaHome m c st in
  if str_contains out "does not exist" then (None, st')
  else if failed then (Some "truststore.Java: exit status 1"%string, st')
  else (None, st').

(** A machine with [sudo] where every command succeeds. *)
Definition m_sudo : machine :=
  mkMachine (Some "1000")
    (fun n => if String.eqb n "sudo" then Some "/usr/bin/sudo"
              else if String.eqb n "tee" then Some "/usr/bin/tee" else None)
    "linux" (fun _ => (""%string, false)).

(** Whether a store entry is a certificate with the given serial. *)
Definition has_serial (serial : Z) (c : win_entry) : bool :=
  match c with Some pc => (pc.(SerialNumber) =? serial)%Z | None => false end.

(** A trust-settings list with an unrelated entry first, then the entry
    of the root [cert_with_serial 7] of [darwin_with]. *)
Definition trust_list_sample : list (string * pvalue) :=
  [("aa", PDict [("issuerName", PData [1%Z; 2%Z])]);
   ("bb", PDict [("issuerName", PData (subject_der (cert_with_serial 7).(Subject)))])].

(** A machine on which [keytool] reports that the alias is not in the
    keystore and exits with a failure. *)
Definition m_no_alias : machine :=
  mkMachine (Some "1000") (fun _ => None) "linux"
    (fun _ => ("keytool error: java.lang.Exception: Alias <zcert> does not exist"%string, true)).

(* ================================================================== *)
(** * Properties *)

Lemma add_host_classify (tpl : Certificate) (h : string) :
  add_host tpl h =
  match spec_classify h with
  | SanIP ip => set_ips tpl (tpl.(IPAddresses) ++ [ip])
  | SanEmail e => set_emails tpl (tpl.(EmailAddresses) ++ [e])
  | SanURI u => set_uris tpl (tpl.(URIs) ++ [u])
  | SanDNS d => set_dns tpl (tpl.(DNSNames) ++ [d])
  end.
Proof.
  unfold add_host, spec_classify.
  destruct (ParseIP h) as [ip|]; [reflexivity|].
  destruct (ParseAddress h) as [a|]; [destruct (String.eqb a h) eqn:E|].
  - apply String.eqb_eq in E; subst; reflexivity.
  - destruct (ParseURL h) as [u|]; [|reflexivity].
    destruct (negb _ && negb _); reflexivity.
  - destruct (ParseURL h) as [u|]; [|reflexivity].
    destruct (negb _ && negb _); reflexivity.
Qed.

Lemma add_hosts_fields (hosts : list string) : forall tpl : Certificate,
  let t := add_hosts tpl hosts in
  t.(IPAddresses) = tpl.(IPAddresses) ++ omap san_ip (map spec_classify hosts) /\
  t.(EmailAddresses) = tpl.(EmailAddresses) ++ omap san_email (map spec_classify hosts) /\
  t.(URIs) = tpl.(URIs) ++ omap san_uri (map spec_classify hosts) /\
  t.(DNSNames) = tpl.(DNSNames) ++ omap san_dns (map spec_classify hosts) /\
  leaf_rest t = leaf_rest tpl.
Proof.
  induction hosts as [|h hs IH]; intros tpl; simpl.
  - rewrite !app_nil_r. auto.
  - unfold add_hosts in *. simpl.
    destruct (IH (add_host tpl h)) as (H1 & H2 & H3 & H4 & H5).
    rewrite H1, H2, H3, H4, H5, add_host_classify.
    destruct (spec_classify h); simpl; rewrite <- ?app_assoc; auto.
Qed.

(** C1: each name is classified on its own and in order: IP literal,
    else exact-match email, else URI with scheme and host, else DNS name;
    "10.0.0.1" is an IP, "user@example.com" an email,
    "https://example.com/path" a URI, "example.com" and "*.example.com"
    DNS names. *)
Theorem makecert_classifies_hosts :
  (forall (serial : Z) (hosts : list string),
     let t := add_hosts (leaf_template serial) hosts in
     t.(IPAddresses) = omap san_ip (map spec_classify hosts) /\
     t.(EmailAddresses) = omap san_email (map spec_classify hosts) /\
     t.(URIs) = omap san_uri (map spec_classify hosts) /\
     t.(DNSNames) = omap san_dns (map spec_classify hosts)) /\
  (let t := add_hosts (leaf_template 0)
              ["10.0.0.1"; "user@example.com"; "https://example.com/path";
               "example.com"; "*.example.com"]%string in
   t.(IPAddresses) = [[10; 0; 0; 1]%Z] /\
   t.(EmailAddresses) = ["user@example.com"%string] /\
   map Host t.(URIs) = ["example.com"%string] /\ map Scheme t.(URIs) = ["https"%string] /\
   t.(DNSNames) = ["example.com"; "*.example.com"]%string).
Proof.
  split.
  - intros serial hosts.
    destruct (add_hosts_fields hosts (leaf_template serial)) as (H1 & H2 & H3 & H4 & _).
    simpl in *. rewrite H1, H2, H3, H4. auto.
  - vm_compute. repeat split.
Qed.

(* ------------------------------------------------------------------ *)
(** ** [MakeCert] with no names *)

(** C4 (counterexample): with no names and no client certificate,
    [MakeCert] returns no error: it signs and writes a leaf. *)
Lemma makecert_empty_hosts_no_error :
  is_err (MakeCert env_all_ok false []) = false /\
  (exists blocks, MakeCert env_all_ok false [] = Ok blocks).
Proof. split; [reflexivity | eexists; reflexivity]. Qed.

(** C4 (amended): [MakeCert] does not itself reject an empty name list
    (the CLI checks it before calling); with no names and no client
    certificate, once a root is available and the draws, the signing
    and the writes succeed, it writes a signed leaf with no subject
    alternative name and no extended key usage. *)
Theorem makecert_empty_hosts_signs_bare_leaf (env : mc_env) (cacert : Certificate)
    (cakey : PrivateKey) (serial : Z) (priv : PrivateKey)
    (Hroot : match env.(env_root) with Some r => Some r | None => env.(env_load) end
             = Some (cacert, cakey))
    (Hserial : env.(env_serial) = Some serial) (Hkey : env.(env_key) = Some priv)
    (Hsign : env.(env_sign_ok) = true) (Hw1 : env.(env_write1_ok) = true)
    (Hw2 : env.(env_write2_ok) = true) :
  exists leaf,
    MakeCert env false [] = Ok [KeyBlock priv; CertBlock leaf cacert cakey] /\
    leaf.(IPAddresses) = [] /\ leaf.(EmailAddresses) = [] /\ leaf.(URIs) = [] /\
    leaf.(DNSNames) = [] /\ leaf.(ExtKeyUsages) = [] /\
    leaf.(SerialNumber) = serial /\ leaf.(CertPublicKey) = Some (Public priv).
Proof.
  unfold MakeCert. rewrite Hroot, Hserial, Hkey, Hsign, Hw1, Hw2. simpl.
  eexists. split; [reflexivity|]. repeat split.
Qed.

(** Witness of [makecert_empty_hosts_signs_bare_leaf] at [env_all_ok]. *)
Lemma makecert_empty_hosts_signs_bare_leaf_witness :
  exists leaf : Certificate,
    MakeCert env_all_ok false [] =
      Ok [KeyBlock 5%Z; CertBlock leaf
            (mkCert 7%Z (mkName ["zcert development CA"] [user_and_hostname] "zcert")
               None (Some (Public 11%Z)) true [] [] [] [] []) 11%Z] /\
    leaf.(IPAddresses) = [] /\ leaf.(EmailAddresses) = [] /\ leaf.(URIs) = [] /\
    leaf.(DNSNames) = [] /\ leaf.(ExtKeyUsages) = [] /\
    leaf.(SerialNumber) = 42%Z /\ leaf.(CertPublicKey) = Some (Public 5%Z).
Proof.
  apply (makecert_empty_hosts_signs_bare_leaf env_all_ok _ _ 42%Z 5%Z);
    reflexivity.
Defined.

(* ------------------------------------------------------------------ *)
(** ** The certificate cache of [TLSConfig] *)

Lemma get_certificate_keeps (envs : nat -> mc_env) (n : string) (st st' : tls_state)
    (r : outcome nat) :
  GetCertificate envs n st = (r, st') ->
  forall k p, st.(certs) !! k = Some p -> st'.(certs) !! k = Some p.
Proof.
  unfold GetCertificate. intros H k p Hk.
  destruct (certs st !! n) eqn:E; [inversion H; subst; exact Hk|].
  destruct (MakeTLSCert _ _ _); inversion H; subst; simpl; auto.
  rewrite lookup_insert_ne; [exact Hk|]. intros ->. congruence.
Qed.

Lemma get_certificate_stores (envs : nat -> mc_env) (n : string) (st st' : tls_state)
    (p : nat) :
  GetCertificate envs n st = (Ok p, st') -> st'.(certs) !! n = Some p.
Proof.
  unfold GetCertificate. intros H.
  destruct (certs st !! n) eqn:E; [inversion H; subst; exact E|].
  destruct (MakeTLSCert _ _ _); inversion H; subst; simpl.
  apply lookup_insert_eq.
Qed.

Lemma tls_steps_keeps (envs : nat -> mc_env) (st st' : tls_state) :
  tls_steps envs st st' ->
  forall k p, st.(certs) !! k = Some p -> st'.(certs) !! k = Some p.
Proof.
  induction 1 as [|st n r st1 st2 Hget _ IH]; auto.
  intros k p Hk. apply IH. eapply get_certificate_keeps; eauto.
Qed.

Lemma get_certificate_wf (envs : nat -> mc_env) (n : string) (st st' : tls_state)
    (r : outcome nat) :
  tls_wf st -> GetCertificate envs n st = (r, st') -> tls_wf st'.
Proof.
  unfold GetCertificate. intros [Hb Hi] H.
  destruct (certs st !! n) eqn:E; [inversion H; subst; split; auto|].
  destruct (MakeTLSCert _ _ _); inversion H; subst; simpl; try (split; auto; fail).
  split.
  - intros k p Hk. cbn [certs heap] in Hk |- *. rewrite List.length_app. simpl.
    destruct (decide (k = n)) as [->|Hne].
    + rewrite lookup_insert_eq in Hk. injection Hk as <-. lia.
    + rewrite lookup_insert_ne in Hk by congruence. specialize (Hb _ _ Hk). lia.
  - intros n1 n2 p H1 H2. cbn [certs heap] in H1, H2.
    destruct (decide (n1 = n)) as [->|H1n]; destruct (decide (n2 = n)) as [->|H2n]; auto.
    + rewrite lookup_insert_eq in H1. rewrite lookup_insert_ne in H2 by congruence.
      injection H1 as <-. specialize (Hb _ _ H2). lia.
    + rewrite lookup_insert_eq in H2. rewrite lookup_insert_ne in H1 by congruence.
      injection H2 as <-. specialize (Hb _ _ H1). lia.
    + rewrite lookup_insert_ne in H1, H2 by congruence. eauto.
Qed.

Lemma tls_steps_wf (envs : nat -> mc_env) (st st' : tls_state) :
  tls_steps envs st st' -> tls_wf st -> tls_wf st'.
Proof.
  induction 1; auto. intros Hwf. apply IHtls_steps. eapply get_certificate_wf; eauto.
Qed.

Lemma tls_init_wf : tls_wf tls_init.
Proof. split; intros *; simpl; rewrite lookup_empty; discriminate. Qed.

(** C2: the [GetCertificate] callback is a cache keyed by server name:
    on a miss it issues a server certificate ([clientCert = false]) for
    exactly that one name, stores it and returns it; every later lookup
    of the name returns the same pointer without issuing; a lookup of a
    different name returns a different pointer. *)
Theorem tls_selector_memoizes (envs : nat -> mc_env) :
  (forall (name : string) (st : tls_state) (t : TLSCertificate),
     st.(certs) !! name = None ->
     MakeTLSCert (envs (List.length st.(calls))) false [name] = Ok t ->
     GetCertificate envs name st =
       (Ok (List.length st.(heap)),
        mkTLSState (<[name := List.length st.(heap)]> st.(certs)) (st.(heap) ++ [t])
                   (st.(calls) ++ [(false, [name])]))) /\
  (forall (name : string) (st st1 st2 : tls_state) (p : nat),
     GetCertificate envs name st = (Ok p, st1) -> tls_steps envs st1 st2 ->
     GetCertificate envs name st2 = (Ok p, st2)) /\
  (forall (n1 n2 : string) (st st1 st1' st2 : tls_state) (p1 p2 : nat),
     tls_steps envs tls_init st -> n1 <> n2 ->
     GetCertificate envs n1 st = (Ok p1, st1) -> tls_steps envs st1 st1' ->
     GetCertificate envs n2 st1' = (Ok p2, st2) -> p1 <> p2).
Proof.
  split; [|split].
  - intros name st t Hmiss Hissue. unfold GetCertificate.
    rewrite Hmiss, Hissue. reflexivity.
  - intros name st st1 st2 p Hget Hsteps.
    pose proof (tls_steps_keeps envs st1 st2 Hsteps name p
                  (get_certificate_stores envs name st st1 p Hget)) as Hin.
    unfold GetCertificate. rewrite Hin. reflexivity.
  - intros n1 n2 st st1 st1' st2 p1 p2 Hreach Hne Hget1 Hsteps Hget2 ->.
    assert (Hwf : tls_wf st2).
    { eapply get_certificate_wf; [|exact Hget2].
      eapply tls_steps_wf; [exact Hsteps|].
      eapply get_certificate_wf; [|exact Hget1].
      eapply tls_steps_wf; [exact Hreach|apply tls_init_wf]. }
    destruct Hwf as [_ Hinj].
    assert (H1 : st2.(certs) !! n1 = Some p2).
    { eapply get_certificate_keeps; [exact Hget2|].
      eapply tls_steps_keeps; [exact Hsteps|].
      eapply get_certificate_stores; exact Hget1. }
    pose proof (get_certificate_stores envs n2 st1' st2 p2 Hget2) as H2.
    apply Hne. exact (Hinj _ _ _ H1 H2).
Qed.

(** Witness of [tls_selector_memoizes]: from [TLSConfig()], "a.test"
    misses and is issued at pointer 0, a second lookup gives 0 again,
    and "b.test" then gets a different pointer. *)
Lemma tls_selector_memoizes_witness :
  exists st1 st2 p2,
    GetCertificate envs_ok "a.test" tls_init = (Ok 0, st1) /\
    GetCertificate envs_ok "a.test" st1 = (Ok 0, st1) /\
    GetCertificate envs_ok "b.test" st1 = (Ok p2, st2) /\ 0 <> p2.
Proof.
  destruct (tls_selector_memoizes envs_ok) as (Hmiss & Hsame & Hdiff).
  assert (H1 : exists st1, GetCertificate envs_ok "a.test" tls_init = (Ok 0, st1)).
  { eexists. eapply (Hmiss "a.test" tls_init); vm_compute; reflexivity. }
  destruct H1 as [st1 H1].
  destruct (GetCertificate envs_ok "b.test" st1) as [r st2] eqn:H3.
  assert (Hr : exists p2, r = Ok p2).
  { pose proof H1 as H1'. vm_compute in H1'. inversion H1'; subst st1.
    vm_compute in H3. inversion H3. eexists; reflexivity. }
  destruct Hr as [p2 ->].
  exists st1, st2, p2. split; [exact H1|]. split.
  - exact (Hsame "a.test" tls_init st1 st1 0 H1 (tls_steps_refl envs_ok st1)).
  - split; [exact H3|].
    exact (Hdiff "a.test" "b.test" tls_init st1 st1 st2 0 p2
             (tls_steps_refl envs_ok tls_init) ltac:(discriminate) H1
             (tls_steps_refl envs_ok st1) H3).
Defined.

(* ------------------------------------------------------------------ *)
(** ** The root on disk *)

Lemma WriteFile_spec (r : bool) (u : N) (f f' : fs) (p : path) (d : file_data) (m : N) :
  WriteFile r u f p d m = Ok f' ->
  (exists m', f'.(files) !! p = Some (mkFile d m') /\
     (f.(files) !! p = None -> m' = N.ldiff m u)) /\
  (forall q, q <> p -> f'.(files) !! q = f.(files) !! q) /\ f'.(dirs) = f.(dirs).
Proof.
  unfold WriteFile. intros H.
  destruct (bool_decide (parent p ∉ dirs f)); [discriminate|].
  destruct (bool_decide (p ∈ dirs f)); [discriminate|].
  destruct (files f !! p) as [old|].
  - destruct (negb r && negb (N.testbit (fmode old) 7)); [discriminate|].
    inversion H; subst; cbn [files dirs].
    split; [eexists; split; [apply lookup_insert_eq|discriminate]|].
    split; [intros q Hq; apply lookup_insert_ne; congruence|reflexivity].
  - inversion H; subst; cbn [files dirs].
    split; [eexists; split; [apply lookup_insert_eq|reflexivity]|].
    split; [intros q Hq; apply lookup_insert_ne; congruence|reflexivity].
Qed.

Lemma StorePath_shape (e : sysenv) (rc rk : path) :
  StorePath e = Some (rc, rk) ->
  exists z, rc = z ++ ["rootCA.pem"] /\ rk = z ++ ["rootCA-key.pem"].
Proof.
  unfold StorePath. intros H.
  destruct (if negb _ then _ else _) as [dir|]; [|discriminate].
  destruct (String.eqb dir ""); [discriminate|].
  inversion H; subst. eexists; split; reflexivity.
Qed.

Lemma StorePath_distinct (e : sysenv) (rc rk : path) :
  StorePath e = Some (rc, rk) -> rc <> rk.
Proof.
  intros H. destruct (StorePath_shape e rc rk H) as (z & -> & ->).
  intros Heq. apply app_inj_tail in Heq. destruct Heq as [_ Heq]. discriminate.
Qed.

Lemma Exists_cert_only (e : sysenv) (f : fs) (rc rk : path) :
  StorePath e = Some (rc, rk) -> Exists e f = pathExists f rc.
Proof. intros H. unfold Exists. rewrite H. reflexivity. Qed.

(** C3 (code bug): after [Create] on an empty disk, [ca.cert] is the
    unsigned template, whose public key is unset, while [Load] on a new
    [CARoot] over the files [Create] wrote gives the certificate with the
    public key of the created key: the two differ in their public key. *)
Lemma create_load_public_key_differs :
  let '(o1, ca1, f1) := Create sys0 draws0 ca_empty fs0 in
  let '(o2, ca2) := Load sys0 ca_empty f1 in
  o1 = Ok tt /\ o2 = Ok tt /\
  option_map CertPublicKey ca1.(cert) = Some None /\
  option_map CertPublicKey ca2.(cert) = Some (Some (Public 11%Z)).
Proof. vm_compute. repeat split. Qed.

Lemma create_ok_serial (e : sysenv) (d : create_draws) (ca ca1 : CARoot) (f f1 : fs) :
  Create e d ca f = (Ok tt, ca1, f1) ->
  exists c s, ca1.(cert) = Some c /\ d.(cd_serial) = Some s /\ c.(SerialNumber) = s.
Proof.
  unfold Create. intros H.
  destruct (StorePath e) as [[rc rk]|]; [|inversion H].
  destruct (Exists e f); [inversion H|].
  destruct (MkdirAll f (parent rc)) as [f2| | |]; try (inversion H; fail).
  destruct (cd_key d) as [k|]; [|inversion H].
  destruct (cd_serial d) as [s|]; [|inversion H].
  destruct (cd_sign_ok d); [|inversion H]. simpl in H.
  destruct (WriteFile _ _ f2 rk _ _) as [f3| | |]; try (inversion H; fail).
  destruct (WriteFile _ _ f3 rc _ _) as [f4| | |]; try (inversion H; fail).
  inversion H; subst. simpl. eauto.
Qed.

Lemma parent_app_single (z : path) (c : string) : parent (z ++ [c]) = z.
Proof. unfold parent. apply removelast_last. Qed.

(** C8 (counterexample): when the root's directory holds another file,
    [Delete] removes both files but fails on the directory, which stays. *)
Lemma delete_nonempty_dir_fails :
  let '(o, f') := Delete sys0 fs_extra in
  is_err o = true /\ bool_decide (ca_dir ∈ f'.(dirs)) = true /\
  pathExists f' ca_cert_path = false /\ pathExists f' ca_key_path = false.
Proof. vm_compute. repeat split. Qed.

(** C8 (amended): [Delete] with no certificate file returns nil and
    changes nothing. With both files present and nothing else in their
    directory, it removes the two files and the directory and returns
    nil; a later [New] then takes the [Create] branch ([created = true]),
    and when that succeeds the new root's serial is the fresh draw of
    [randomSerialNumber]. With both files present and any other file or
    directory in their directory, it removes the two files, then fails
    to remove the directory: it returns an error and the directory
    stays. *)
Theorem delete_then_new (e : sysenv) (d : create_draws) (f : fs) (rc rk : path) :
  StorePath e = Some (rc, rk) ->
  (pathExists f rc = false -> Delete e f = (Ok tt, f)) /\
  (is_Some (f.(files) !! rc) -> is_Some (f.(files) !! rk) ->
   f.(files) !! parent rc = None -> parent rc ∈ f.(dirs) ->
   map_Forall (fun q _ => parent q = parent rc -> q = rc \/ q = rk) f.(files) ->
   set_Forall (fun q => q <> parent rc -> parent q <> parent rc) f.(dirs) ->
   let f' := mkFS (delete rk (delete rc f.(files))) (f.(dirs) ∖ {[parent rc]}) in
   Delete e f = (Ok tt, f') /\
   pathExists f' rc = false /\ pathExists f' rk = false /\ (parent rc ∉ f'.(dirs)) /\
   New e d f' = (let '(o, ca, f'') := Create e d ca_empty f' in (ca, true, o, f'')) /\
   (forall ca f'', Create e d ca_empty f' = (Ok tt, ca, f'') ->
      exists c s, ca.(cert) = Some c /\ d.(cd_serial) = Some s /\ c.(SerialNumber) = s)) /\
  (is_Some (f.(files) !! rc) -> is_Some (f.(files) !! rk) ->
   f.(files) !! parent rc = None -> parent rc ∈ f.(dirs) ->
   ((exists q x, f.(files) !! q = Some x /\ q <> rc /\ q <> rk /\ parent q = parent rc) \/
    (exists q, q ∈ f.(dirs) /\ q <> parent rc /\ parent q = parent rc)) ->
   exists msg,
     Delete e f = (Err msg, mkFS (delete rk (delete rc f.(files))) f.(dirs)) /\
     parent rc ∈ (snd (Delete e f)).(dirs)).
Proof.
  intros SP. split; [|split].
  - intros Hno. unfold Delete. rewrite (Exists_cert_only e f rc rk SP), Hno. reflexivity.
  - intros [xc Hc] [xk Hk] Hdirf Hdir Hfiles Hsub f'.
    pose proof (StorePath_distinct e rc rk SP) as Hne.
    destruct (StorePath_shape e rc rk SP) as (z & Erc & Erk).
    assert (Hpc : parent rc = z) by (subst; apply parent_app_single).
    assert (Hpk : parent rk = z) by (subst; apply parent_app_single).
    assert (Hrc_dir : rc ∉ f.(dirs)).
    { intros Hin. apply (Hsub rc Hin).
      - rewrite Hpc. intros Heq. rewrite Erc in Heq.
        apply (f_equal List.length) in Heq. rewrite List.length_app in Heq. simpl in Heq. lia.
      - reflexivity. }
    assert (Hrk_dir : rk ∉ f.(dirs)).
    { intros Hin. apply (Hsub rk Hin).
      - rewrite Hpc. intros Heq. rewrite Erk in Heq.
        apply (f_equal List.length) in Heq. rewrite List.length_app in Heq. simpl in Heq. lia.
      - congruence. }
    assert (Hdel : Delete e f = (Ok tt, f')).
    { unfold Delete. rewrite (Exists_cert_only e f rc rk SP). unfold pathExists.
      rewrite Hc. simpl. rewrite SP. unfold Remove.
      rewrite Hc. simpl.
      rewrite (bool_decide_eq_true_2 (is_Some (delete rc (files f) !! rk)))
        by (rewrite lookup_delete_ne by congruence; rewrite Hk; eauto).
      cbn [files dirs].
      rewrite (bool_decide_eq_false_2 (is_Some (delete rk (delete rc (files f)) !! parent rc)))
        by (rewrite lookup_delete_ne, lookup_delete_ne by congruence;
            rewrite Hdirf; intros [? Hx]; discriminate).
      rewrite (bool_decide_eq_true_2 (parent rc ∈ dirs f)) by exact Hdir.
      rewrite (bool_decide_eq_false_2 (map_Exists _ _)).
      2:{ intros (q & x & Hq & Hpq).
          destruct (decide (q = rk)) as [->|Hqk]; [rewrite lookup_delete_eq in Hq; discriminate|].
          rewrite lookup_delete_ne in Hq by congruence.
          destruct (decide (q = rc)) as [->|Hqc]; [rewrite lookup_delete_eq in Hq; discriminate|].
          rewrite lookup_delete_ne in Hq by congruence.
          destruct (Hfiles q x Hq Hpq); contradiction. }
      rewrite (bool_decide_eq_false_2 (set_Exists _ _)).
      2:{ intros (q & Hq & Hqne & Hpq). exact (Hsub q Hq Hqne Hpq). }
      reflexivity. }
    assert (Hrc' : pathExists f' rc = false).
    { unfold pathExists, f'. cbn [files dirs].
      rewrite lookup_delete_ne by congruence. rewrite lookup_delete_eq.
      rewrite bool_decide_eq_false_2 by (intros [? Hx]; discriminate). simpl.
      apply bool_decide_eq_false_2. set_solver. }
    assert (Hrk' : pathExists f' rk = false).
    { unfold pathExists, f'. cbn [files dirs]. rewrite lookup_delete_eq.
      rewrite bool_decide_eq_false_2 by (intros [? Hx]; discriminate). simpl.
      apply bool_decide_eq_false_2. set_solver. }
    split; [exact Hdel|]. split; [exact Hrc'|]. split; [exact Hrk'|].
    split; [unfold f'; cbn [dirs]; set_solver|]. split.
    + unfold New. rewrite (Exists_cert_only e f' rc rk SP), Hrc'. simpl.
      destruct (Create e d ca_empty f') as [[o ca] f'']. reflexivity.
    + intros ca f'' HC. exact (create_ok_serial e d ca_empty ca f' f'' HC).
  - intros [xc Hc] [xk Hk] Hdirf Hdir Hother.
    pose proof (StorePath_distinct e rc rk SP) as Hne.
    assert (Hdel : Delete e f = (Err "zcert.Delete: remove dir",
                                 mkFS (delete rk (delete rc f.(files))) f.(dirs))).
    { unfold Delete. rewrite (Exists_cert_only e f rc rk SP). unfold pathExists.
      rewrite Hc. simpl. rewrite SP. unfold Remove.
      rewrite Hc. simpl.
      rewrite (bool_decide_eq_true_2 (is_Some (delete rc (files f) !! rk)))
        by (rewrite lookup_delete_ne by congruence; rewrite Hk; eauto).
      cbn [files dirs].
      rewrite (bool_decide_eq_false_2 (is_Some (delete rk (delete rc (files f)) !! parent rc)))
        by (rewrite lookup_delete_ne, lookup_delete_ne by congruence;
            rewrite Hdirf; intros [? Hx]; discriminate).
      rewrite (bool_decide_eq_true_2 (parent rc ∈ dirs f)) by exact Hdir.
      destruct Hother as [(q & x & Hq & Hqc & Hqk & Hpq) | (q & Hq & Hqne & Hpq)].
      - rewrite (bool_decide_eq_true_2 (map_Exists _ _)); [reflexivity|].
        exists q, x. split; [|exact Hpq].
        rewrite lookup_delete_ne, lookup_delete_ne by congruence. exact Hq.
      - rewrite (bool_decide_eq_true_2 (set_Exists _ (dirs f))), orb_true_r; [reflexivity|].
        exists q. auto. }
    exists "zcert.Delete: remove dir"%string. split; [exact Hdel|].
    rewrite Hdel. exact Hdir.
Qed.

(** Witness of [delete_then_new]: on an empty disk [Delete] is a no-op;
    with both files alone in their directory it removes them and the
    directory, and [New] then creates; with a third file next to them,
    [Delete] fails and the directory stays. *)
Lemma delete_then_new_witness :
  Delete sys0 fs0 = (Ok tt, fs0) /\
  Delete sys0 fs_both =
    (Ok tt, mkFS (delete ca_key_path (delete ca_cert_path fs_both.(files)))
                 (fs_both.(dirs) ∖ {[parent ca_cert_path]})) /\
  snd (fst (fst (New sys0 draws0
                   (mkFS (delete ca_key_path (delete ca_cert_path fs_both.(files)))
                         (fs_both.(dirs) ∖ {[parent ca_cert_path]}))))) = true /\
  exists msg,
    Delete sys0 fs_extra =
      (Err msg, mkFS (delete ca_key_path (delete ca_cert_path fs_extra.(files))) fs_extra.(dirs)) /\
    parent ca_cert_path ∈ (snd (Delete sys0 fs_extra)).(dirs).
Proof.
  assert (SP : StorePath sys0 = Some (ca_cert_path, ca_key_path)) by (vm_compute; reflexivity).
  destruct (delete_then_new sys0 draws0 fs0 ca_cert_path ca_key_path SP) as [P1 _].
  split; [apply P1; vm_compute; reflexivity|].
  destruct (delete_then_new sys0 draws0 fs_both ca_cert_path ca_key_path SP) as [_ [P2 _]].
  destruct P2 as (D & _ & _ & _ & N & _);
    [vm_compute; eexists; reflexivity | vm_compute; eexists; reflexivity
    | vm_compute; reflexivity | apply (bool_decide_unpack _); vm_compute; reflexivity
    | apply (bool_decide_unpack _); vm_compute; reflexivity
    | apply (bool_decide_unpack _); vm_compute; reflexivity |].
  split; [exact D|]. split; [rewrite N; vm_compute; reflexivity|].
  destruct (delete_then_new sys0 draws0 fs_extra ca_cert_path ca_key_path SP) as [_ [_ P3]].
  apply P3;
    [vm_compute; eexists; reflexivity | vm_compute; eexists; reflexivity
    | vm_compute; reflexivity | apply (bool_decide_unpack _); vm_compute; reflexivity |].
  left. exists (ca_dir ++ ["notes.txt"]), (mkFile (OtherData "notes") 420%N).
  split; [vm_compute; reflexivity|].
  split; [apply (bool_decide_unpack _); vm_compute; reflexivity|].
  split; [apply (bool_decide_unpack _); vm_compute; reflexivity|].
  vm_compute. reflexivity.
Defined.

(** C10: whether the root exists is decided by the certificate path alone;
    when the certificate file is absent but the key file is present,
    [Exists] is false, [Delete] succeeds and leaves the disk (and so the
    key file) as it was, and [New] takes the [Create] branch. *)
Theorem exists_ignores_orphan_key (e : sysenv) (d : create_draws) (f : fs) (rc rk : path) :
  StorePath e = Some (rc, rk) ->
  is_Some (f.(files) !! rk) ->
  pathExists f rc = false ->
  (forall f', Exists e f' = pathExists f' rc) /\
  Exists e f = false /\
  Delete e f = (Ok tt, f) /\
  is_Some ((snd (Delete e f)).(files) !! rk) /\
  New e d f = (let '(o, ca, f'') := Create e d ca_empty f in (ca, true, o, f'')).
Proof.
  intros SP Hk Hno.
  assert (HE : forall f', Exists e f' = pathExists f' rc)
    by (intros f'; unfold Exists; rewrite SP; reflexivity).
  assert (Hdel : Delete e f = (Ok tt, f)) by (unfold Delete; rewrite HE, Hno; reflexivity).
  split; [exact HE|]. split; [rewrite HE; exact Hno|].
  split; [exact Hdel|]. split; [rewrite Hdel; exact Hk|].
  unfold New. rewrite HE, Hno. simpl. reflexivity.
Qed.

(** Witness of [exists_ignores_orphan_key] on a disk with only the key;
    [New] then fails to write over the read-only key file. *)
Lemma exists_ignores_orphan_key_witness :
  Exists sys0 fs_key_only = false /\ Delete sys0 fs_key_only = (Ok tt, fs_key_only) /\
  (let '(_, created, o, _) := New sys0 draws0 fs_key_only in (created, o))
    = (true, Err "zcert.Create: save CA key").
Proof.
  assert (SP : StorePath sys0 = Some (ca_cert_path, ca_key_path)) by (vm_compute; reflexivity).
  destruct (exists_ignores_orphan_key sys0 draws0 fs_key_only ca_cert_path ca_key_path SP)
    as (_ & HE & HD & _ & HN);
    [vm_compute; eexists; reflexivity | vm_compute; reflexivity |].
  split; [exact HE|]. split; [exact HD|]. rewrite HN. vm_compute. reflexivity.
Defined.

(** [Append] on an unbounded group records each non-nil error. *)
Lemma fan_out_unbounded (op : StoreKind -> option string) (stores : list StoreKind) :
  forall es n called, exists n',
    fan_out op stores (mkGroup 0 es n) called
    = (mkGroup 0 (es ++ omap op stores) n', called ++ stores).
Proof.
  induction stores as [|s rest IH]; intros es n called.
  - exists n. simpl. rewrite !app_nil_r. reflexivity.
  - simpl. destruct (op s) as [m|] eqn:Hs; simpl.
    + destruct (IH (es ++ [m]) (S n) (called ++ [s])) as [n' ->].
      exists n'. rewrite <- !app_assoc. reflexivity.
    + destruct (IH es n (called ++ [s])) as [n' ->].
      exists n'. rewrite <- !app_assoc. reflexivity.
Qed.

Lemma omap_nil_Forall (op : StoreKind -> option string) (l : list StoreKind) :
  omap op l = [] <-> Forall (fun s => op s = None) l.
Proof.
  induction l as [|s l IH]; simpl.
  - split; auto.
  - destruct (op s) eqn:Hs; split; intros H.
    + discriminate.
    + inversion H; congruence.
    + constructor; [exact Hs | apply IH; exact H].
    + inversion H; subst. apply IH. assumption.
Qed.

(** C7: with no store found, [Install] returns a non-nil error (the load
    error or "no compatible truststores found"). With the root in memory
    or loaded and at least one store, every store found is called in
    order, the result is nil exactly when every store returned nil, and a
    non-nil result is the [*Group] holding the failing stores' errors in
    order. *)
Theorem install_fan_out (e : sysenv) (ca : CARoot) (f : fs)
    (onSystem : StoreKind -> bool) (op : StoreKind -> option string) :
  (Find onSystem = [] -> fst (InstallAll e ca f onSystem op) <> None) /\
  ((ca.(cert) <> None \/ fst (Load e ca f) = Ok tt) -> Find onSystem <> [] ->
   snd (InstallAll e ca f onSystem op) = Find onSystem /\
   (fst (InstallAll e ca f onSystem op) = None <->
      Forall (fun s => op s = None) (Find onSystem)) /\
   (fst (InstallAll e ca f onSystem op) = None \/
      exists g, fst (InstallAll e ca f onSystem op) = Some (EGroup g) /\
                g.(errs) = omap op (Find onSystem))).
Proof.
  split.
  - intros Hnone. unfold InstallAll. rewrite Hnone.
    destruct (match ca.(cert) with Some _ => Ok tt | None => fst (Load e ca f) end);
      simpl; discriminate.
  - intros Hl Hne.
    assert (Hok : match ca.(cert) with Some _ => Ok tt | None => fst (Load e ca f) end = Ok tt).
    { destruct (cert ca); [reflexivity|]. destruct Hl as [Hl|Hl]; [congruence|exact Hl]. }
    unfold InstallAll, NewGroup. rewrite Hok.
    destruct (fan_out_unbounded op (Find onSystem) [] 0 []) as [n' Hf].
    destruct (Find onSystem) as [|s0 rest] eqn:HF; [congruence|].
    rewrite Hf, !app_nil_l.
    rewrite <- omap_nil_Forall.
    remember (omap op (s0 :: rest)) as L eqn:HL.
    cbn [fst snd]. unfold ErrorOrNil. cbn [errs].
    split; [reflexivity|].
    destruct L as [|m ms]; simpl.
    + split; [split; reflexivity|]. left. reflexivity.
    + split; [split; discriminate|]. right. eexists. split; reflexivity.
Qed.

(** Witness of [install_fan_out]. *)
Lemma install_fan_out_witness :
  fst (InstallAll sys0 ca_sample fs0 (fun _ => false) op_sample) <> None /\
  snd (InstallAll sys0 ca_sample fs0 onSystem_sample op_sample) = [NSS; Unix] /\
  (exists g, fst (InstallAll sys0 ca_sample fs0 onSystem_sample op_sample) = Some (EGroup g) /\
             g.(errs) = ["certutil failed"%string]).
Proof.
  destruct (install_fan_out sys0 ca_sample fs0 (fun _ => false) op_sample) as [P1 _].
  split; [apply P1; vm_compute; reflexivity|].
  destruct (install_fan_out sys0 ca_sample fs0 onSystem_sample op_sample) as [_ P2].
  destruct P2 as (Hc & _ & [Hn | (g & Hg & He)]);
    [left; vm_compute; discriminate | vm_compute; discriminate | |].
  - split; [exact Hc|]. vm_compute in Hn. discriminate.
  - split; [exact Hc|]. exists g. split; [exact Hg|]. rewrite He. vm_compute. reflexivity.
Defined.

Lemma deleteCertsWithSerial_none_match (w : win_env) (serial : Z) (store : list win_entry) :
  win_enum_end w = None ->
  Forall (fun c => match c with Some pc => pc.(SerialNumber) <> serial | None => True end) store ->
  deleteCertsWithSerial w serial store false = (false, None, store).
Proof.
  intros Hend Hall. induction Hall as [|c rest Hc Hrest IH]; simpl.
  - rewrite Hend. reflexivity.
  - destruct c as [pc|].
    + destruct (Z.eqb_spec pc.(SerialNumber) serial) as [Heq|_]; [contradiction|].
      rewrite IH. reflexivity.
    + rewrite IH. reflexivity.
Qed.

(** C5 (code bug): when the store opens, and the enumeration ends normally
    without deleting anything, [Windows.Uninstall] returns nil: the
    "no certs found" error is assigned to [err] and never returned. In
    particular this is the result when no certificate in the store has
    the root's serial. *)
Theorem windows_uninstall_not_found_nil (w : win_env) (caCert : Certificate)
    (store : list win_entry) :
  win_open_ok w = true ->
  (forall kept, deleteCertsWithSerial w caCert.(SerialNumber) store false = (false, None, kept) ->
     Windows_Uninstall w caCert store = (None, kept)) /\
  (win_enum_end w = None ->
   Forall (fun c => match c with
                    | Some pc => pc.(SerialNumber) <> caCert.(SerialNumber)
                    | None => True end) store ->
   Windows_Uninstall w caCert store = (None, store)).
Proof.
  intros Hopen.
  assert (G : forall kept, deleteCertsWithSerial w caCert.(SerialNumber) store false = (false, None, kept) ->
     Windows_Uninstall w caCert store = (None, kept)).
  { intros kept Hd. unfold Windows_Uninstall. rewrite Hopen, Hd. reflexivity. }
  split; [exact G|].
  intros Hend Hall. apply G. apply deleteCertsWithSerial_none_match; assumption.
Qed.

(** Witness of [windows_uninstall_not_found_nil]: removing the root with
    serial 7 from a store holding only serial 5 returns nil. *)
Lemma windows_uninstall_not_found_nil_witness :
  Windows_Uninstall win_ok (cert_with_serial 7) [Some (cert_with_serial 5)]
    = (None, [Some (cert_with_serial 5)]).
Proof.
  destruct (windows_uninstall_not_found_nil win_ok (cert_with_serial 7)
              [Some (cert_with_serial 5)]) as [_ P];
    [reflexivity|].
  apply P; [reflexivity|].
  constructor; [simpl; lia | constructor].
Defined.

(** C6 (code bug): once the [security] runs and the temp-file steps
    succeed, [Darwin.Install] on trust settings whose [trustVersion] is an
    integer other than 1 ends in [log.Fatalln] (the process exits) instead
    of returning an error; and when the exported data does not parse, the
    parse error is dropped and the type assertion on the missing
    [trustVersion] panics. *)
Theorem darwin_install_terminates (d : darwin_env) (caCert : Certificate) :
  dw_add_ok d = true -> dw_tempfile_ok d = true ->
  dw_export_ok d = true -> dw_read_ok d = true ->
  (forall r v, dw_plist d = Some r -> dict_get r "trustVersion" = Some (PUint v) -> v <> 1%N ->
     exists m, Darwin_Install d caCert = Fatal m) /\
  (dw_plist d = None -> exists m, Darwin_Install d caCert = Panic m).
Proof.
  intros Ha Ht He Hr. unfold Darwin_Install. rewrite Ha, Ht, He, Hr. simpl.
  split.
  - intros r v Hp Hv Hne. rewrite Hp, Hv.
    apply N.eqb_neq in Hne. rewrite Hne. simpl. eexists. reflexivity.
  - intros Hp. rewrite Hp. simpl. eexists. reflexivity.
Qed.

(** Witness of [darwin_install_terminates]: version 2 with an empty
    trust list, and unparsable data. *)
Lemma darwin_install_terminates_witness :
  Darwin_Install (darwin_with (Some [("trustVersion", PUint 2); ("trustList", PDict [])]))
                 (cert_with_serial 7)
    = Fatal "ERROR: unsupported trust settings version:" /\
  (exists m, Darwin_Install (darwin_with None) (cert_with_serial 7) = Panic m).
Proof.
  split.
  - destruct (darwin_install_terminates
                (darwin_with (Some [("trustVersion", PUint 2); ("trustList", PDict [])]))
                (cert_with_serial 7)) as [P _];
      [reflexivity | reflexivity | reflexivity | reflexivity |].
    destruct (P [("trustVersion", PUint 2); ("trustList", PDict [])] 2%N) as [m Hm];
      [reflexivity | reflexivity | lia |].
    rewrite Hm. vm_compute in Hm. inversion Hm. reflexivity.
  - destruct (darwin_install_terminates (darwin_with None) (cert_with_serial 7))
      as [_ P]; [reflexivity | reflexivity | reflexivity | reflexivity |].
    apply P. reflexivity.
Defined.

Lemma privCmd_state (m : machine) (cmd : list string) (st : pstate) :
  snd (privCmd m cmd st) =
  mkPState (warned st || no_escalation m) (ran st)
           (stderr st ++ (if no_escalation m && negb (warned st) then [privWarningText] else [])).
Proof.
  destruct st as [w r e]. unfold privCmd, no_escalation. cbn [warned ran stderr].
  destruct (bool_decide (m_uid m = Some "0")); simpl; [rewrite orb_false_r, app_nil_r; reflexivity|].
  destruct (binaryExists m "sudo"); simpl; [rewrite orb_false_r, app_nil_r; reflexivity|].
  destruct (binaryExists m "doas"); simpl; [rewrite orb_false_r, app_nil_r; reflexivity|].
  destruct w; simpl; [rewrite app_nil_r|]; reflexivity.
Qed.

Lemma privCmd_retry_cmd (m : machine) (retryEnv : option (list string)) (c : Cmd) (st : pstate) :
  let c' := fst (privCmd m [c.(CmdPath)] st) in
  mkCmd c'.(CmdPath) (c'.(CmdArgs) ++ tl c.(CmdArgs))
        (match retryEnv with Some e => Some e | None => c'.(CmdEnv) end)
  = retry_cmd m retryEnv c.
Proof.
  unfold privCmd, retry_cmd, escalated. simpl.
  destruct (bool_decide (m_uid m = Some "0")); [reflexivity|].
  destruct (binaryExists m "sudo"); [reflexivity|].
  destruct (binaryExists m "doas"); [reflexivity|].
  destruct (warned st); reflexivity.
Qed.

Lemma warn_inv_steps (m : machine) (st st' : pstate) :
  proc_steps m st st' ->
  (warned st = false /\ stderr st = [] \/ warned st = true /\ stderr st = [privWarningText]) ->
  warned st' = false /\ stderr st' = [] \/ warned st' = true /\ stderr st' = [privWarningText].
Proof.
  assert (Hpriv : forall cmd s,
    (warned s = false /\ stderr s = [] \/ warned s = true /\ stderr s = [privWarningText]) ->
    let s' := snd (privCmd m cmd s) in
    warned s' = false /\ stderr s' = [] \/ warned s' = true /\ stderr s' = [privWarningText]).
  { intros cmd s Hs. simpl. rewrite privCmd_state. cbn [warned stderr].
    destruct Hs as [[-> ->] | [-> ->]]; destruct (no_escalation m); simpl; auto. }
  assert (Hrun : forall c s, warned (snd (CombinedOutput m c s)) = warned s /\
                             stderr (snd (CombinedOutput m c s)) = stderr s).
  { intros c s. unfold CombinedOutput. destruct (m_run m c). simpl. auto. }
  intros Hsteps Hinit. induction Hsteps as [st|st st' cmd _ IH|st st' c _ IH|st st' marker env c _ IH].
  - exact Hinit.
  - apply Hpriv. exact (IH Hinit).
  - destruct (Hrun c st') as [-> ->]. exact (IH Hinit).
  - specialize (IH Hinit). unfold execRetry.
    destruct (CombinedOutput m c st') as [[out failed] st1] eqn:Hc.
    assert (H1 : warned st1 = false /\ stderr st1 = [] \/ warned st1 = true /\ stderr st1 = [privWarningText]).
    { destruct (Hrun c st') as [Hw He]. rewrite Hc in Hw, He. simpl in Hw, He. rewrite Hw, He. exact IH. }
    destruct (failed && str_contains out marker && negb (String.eqb (m_goos m) "windows")); [|exact H1].
    destruct (privCmd m [CmdPath c] st1) as [c' st2] eqn:Hp.
    pose proof (Hpriv [CmdPath c] st1 H1) as H2. simpl in H2. rewrite Hp in H2. simpl in H2.
    destruct (Hrun (mkCmd (CmdPath c') (CmdArgs c' ++ tl (CmdArgs c))
                      match env with Some e => Some e | None => CmdEnv c' end) st2) as [Hw He].
    rewrite Hw, He. exact H2.
Qed.

(** C9: a tool run whose first run fails with the marker in its output,
    not on Windows, is re-run exactly once, as the same program and
    arguments wrapped by [escalated] (direct when root, else [sudo], else
    [doas], else unwrapped); that retry writes the warning only when there
    is no way to escalate and the warning was not written before. Any
    other first run is not re-run. Over any sequence of calls of one
    process the warning is written at most once. For NSS ([retryEnv] is
    [None]) the retry is exactly the [escalated] command. *)
Theorem priv_retry_once (marker : string) (retryEnv : option (list string))
    (m : machine) (c : Cmd) (st : pstate) :
  let r := retry_cmd m retryEnv c in
  (snd (m_run m c) && str_contains (fst (m_run m c)) marker
     && negb (String.eqb (m_goos m) "windows") = true ->
   execRetry marker retryEnv m c st =
     (fst (m_run m r), snd (m_run m r),
      mkPState (warned st || no_escalation m) (ran st ++ [c; r])
               (stderr st ++ (if no_escalation m && negb (warned st)
                              then [privWarningText] else [])))) /\
  (snd (m_run m c) && str_contains (fst (m_run m c)) marker
     && negb (String.eqb (m_goos m) "windows") = false ->
   execRetry marker retryEnv m c st =
     (fst (m_run m c), snd (m_run m c), mkPState (warned st) (ran st ++ [c]) (stderr st))) /\
  retry_cmd m None c = escalated m c.(CmdPath) (tl c.(CmdArgs)) /\
  (forall st', proc_steps m pstate0 st' -> stderr st' = [] \/ stderr st' = [privWarningText]).
Proof.
  intros r. unfold execRetry, CombinedOutput.
  destruct (m_run m c) as [out failed] eqn:Hrun. cbn [fst snd].
  split; [|split; [|split]].
  - intros Hcond. rewrite Hcond.
    pose proof (privCmd_retry_cmd m retryEnv c
                  (mkPState (warned st) (ran st ++ [c]) (stderr st))) as Hr.
    pose proof (privCmd_state m [CmdPath c]
                  (mkPState (warned st) (ran st ++ [c]) (stderr st))) as Hs.
    simpl in Hr, Hs.
    destruct (privCmd m [CmdPath c] (mkPState (warned st) (ran st ++ [c]) (stderr st)))
      as [c' st2] eqn:Hp.
    simpl in Hr, Hs. rewrite Hr. fold r. subst st2. simpl.
    destruct (m_run m r) as [o2 f2]. simpl. rewrite <- app_assoc. reflexivity.
  - intros Hcond. rewrite Hcond. reflexivity.
  - unfold retry_cmd, escalated, Command.
    destruct (bool_decide (m_uid m = Some "0")); [reflexivity|].
    destruct (binaryExists m "sudo"); [reflexivity|].
    destruct (binaryExists m "doas"); reflexivity.
  - intros st' Hst.
    destruct (warn_inv_steps m pstate0 st' Hst) as [[_ H] | [_ H]];
      [left; split; reflexivity | left; exact H | right; exact H].
Qed.

(** Witness of [priv_retry_once]: two [certutil] runs that fail with the
    read-only error on a machine with no way to escalate. Each is re-run
    once, unwrapped, and the warning is written once in all. *)
Lemma priv_retry_once_witness :
  ran (snd (execCertutil m_noesc certutil_cmd pstate0))
    = [certutil_cmd; retry_cmd m_noesc None certutil_cmd] /\
  retry_cmd m_noesc None certutil_cmd
    = mkCmd "/usr/bin/certutil" ["/usr/bin/certutil"; "-A"; "-d"; "sql:/home/u/.pki/nssdb"] None /\
  stderr (snd (execCertutil m_noesc certutil_cmd
                 (snd (execCertutil m_noesc certutil_cmd pstate0)))) = [privWarningText] /\
  (forall st', proc_steps m_noesc pstate0 st' -> stderr st' = [] \/ stderr st' = [privWarningText]).
Proof.
  unfold execCertutil.
  destruct (priv_retry_once "SEC_ERROR_READ_ONLY" None m_noesc certutil_cmd pstate0)
    as (P1 & _ & P3 & P4).
  rewrite P1 by (vm_compute; reflexivity). cbn [snd ran].
  split; [reflexivity|]. split; [rewrite P3; vm_compute; reflexivity|].
  split; [|exact P4].
  destruct (priv_retry_once "SEC_ERROR_READ_ONLY" None m_noesc certutil_cmd
              (mkPState (warned pstate0 || no_escalation m_noesc)
                 (ran pstate0 ++ [certutil_cmd; retry_cmd m_noesc None certutil_cmd])
                 (stderr pstate0 ++ (if no_escalation m_noesc && negb (warned pstate0)
                                     then [privWarningText] else []))))
    as (Q1 & _ & _ & _).
  rewrite Q1 by (vm_compute; reflexivity). vm_compute. reflexivity.
Defined.

(* ------------------------------------------------------------------ *)
(** ** Further properties of the code *)

Lemma append_all_unbounded (es : list (option string)) :
  forall errs0 n,
    append_all (mkGroup 0 errs0 n) es
    = mkGroup 0 (errs0 ++ omap (fun e => e) es) (n + List.length (omap (fun e => e) es)).
Proof.
  induction es as [|[e|] es IH]; intros errs0 n; simpl.
  - rewrite app_nil_r, Nat.add_0_r. reflexivity.
  - rewrite IH. rewrite <- app_assoc. simpl. f_equal. rewrite Nat.add_succ_r. reflexivity.
  - apply IH.
Qed.

Lemma append_all_bounded (m : nat) (es : list (option string)) :
  m <> 0 ->
  forall errs0 n, List.length errs0 <= m ->
    append_all (mkGroup m errs0 n) es
    = mkGroup m (List.firstn m (errs0 ++ omap (fun e => e) es))
                (n + List.length (omap (fun e => e) es)).
Proof.
  intros Hm. induction es as [|[e|] es IH]; intros errs0 n Hlen; simpl.
  - rewrite app_nil_r, Nat.add_0_r, List.firstn_all2 by exact Hlen. reflexivity.
  - unfold Append. cbn [MaxSize errs nerrs snd].
    destruct (m =? 0)%nat eqn:Hm0; [apply Nat.eqb_eq in Hm0; contradiction|].
    destruct (List.length errs0 <? m)%nat eqn:Hlt; simpl.
    + apply Nat.ltb_lt in Hlt. rewrite IH by (rewrite List.length_app; simpl; lia).
      rewrite <- app_assoc. simpl. f_equal. rewrite Nat.add_succ_r. reflexivity.
    + apply Nat.ltb_ge in Hlt. rewrite IH by exact Hlen.
      rewrite !List.firstn_app.
      assert (E : m - List.length errs0 = 0) by lia. rewrite E. simpl. f_equal. rewrite Nat.add_succ_r. reflexivity.
  - apply IH. exact Hlen.
Qed.

(** [Group.Append] in a loop: a group from [NewGroup(m)] counts every
    non-nil error in [nerrs] and records them in order, all of them when
    [m] is 0 and only the first [m] otherwise; nil errors are skipped. *)
Theorem append_all_records (m : nat) (es : list (option string)) :
  let g := append_all (NewGroup m) es in
  g.(MaxSize) = m /\
  g.(nerrs) = List.length (omap (fun e => e) es) /\
  g.(errs) = (if (m =? 0)%nat then omap (fun e => e) es
              else List.firstn m (omap (fun e => e) es)).
Proof.
  unfold NewGroup. destruct (m =? 0)%nat eqn:Hm.
  - apply Nat.eqb_eq in Hm. subst m. rewrite append_all_unbounded. simpl. auto.
  - apply Nat.eqb_neq in Hm. rewrite (append_all_bounded m es Hm [] 0) by (simpl; lia).
    simpl. auto.
Qed.

(** [Group.Error] is empty exactly when no error was recorded, so the
    group [ErrorOrNil] returns always has a non-empty message. *)
Theorem group_error_empty_iff (g : Group) :
  (Group_Error g = "" <-> g.(errs) = []) /\
  (ErrorOrNil g = None <-> Group_Error g = "").
Proof.
  unfold Group_Error, ErrorOrNil.
  destruct (errs g) as [|e l]; simpl.
  - split; split; reflexivity.
  - assert (Hne : String.concat "" ((e ++ newline)%string :: map (fun e0 => (e0 ++ newline)%string) l) <> "").
    { destruct l; destruct e; simpl; discriminate. }
    split; split; intros H; try discriminate; try contradiction.
Qed.

Lemma safePath_dot (c2 : ascii) (rest2 : string) :
  safePath (String "." (String c2 rest2))
  = if Ascii.eqb c2 "." then safePath rest2 else String "." (safePath (String c2 rest2)).
Proof. reflexivity. Qed.

Lemma safePath_nondot (c0 : ascii) (rest : string) :
  Ascii.eqb c0 "." = false ->
  safePath (String c0 rest)
  = if Ascii.eqb c0 "/" || Ascii.eqb c0 "\" || Ascii.eqb c0 nul then safePath rest
    else String c0 (safePath rest).
Proof. intros H. simpl. rewrite H. reflexivity. Qed.

Lemma safePath_avoids (c : ascii) :
  Ascii.eqb c "." = false ->
  (Ascii.eqb c "/" || Ascii.eqb c "\" || Ascii.eqb c nul) = true ->
  forall s, str_elem c (safePath s) = false.
Proof.
  intros Hdot Hbad.
  assert (Gen : forall n s, String.length s <= n -> str_elem c (safePath s) = false).
  { induction n as [|n IH]; intros s Hs.
    - destruct s; [reflexivity | simpl in Hs; lia].
    - destruct s as [|c0 rest]; [reflexivity|]. simpl in Hs.
      destruct (Ascii.eqb c0 ".") eqn:E0.
      + apply Ascii.eqb_eq in E0. subst c0.
        destruct rest as [|c2 rest2].
        * simpl. rewrite Hdot. reflexivity.
        * rewrite safePath_dot. destruct (Ascii.eqb c2 ".").
          -- apply IH. simpl in Hs. lia.
          -- cbn [str_elem]. rewrite Hdot, orb_false_l. apply IH. lia.
      + rewrite (safePath_nondot c0 rest E0).
        destruct (Ascii.eqb c0 "/" || Ascii.eqb c0 "\" || Ascii.eqb c0 nul) eqn:B.
        * apply IH. lia.
        * cbn [str_elem]. destruct (Ascii.eqb c c0) eqn:Ec.
          -- apply Ascii.eqb_eq in Ec. subst c0. congruence.
          -- rewrite orb_false_l. apply IH. lia. }
  intros s. apply (Gen (String.length s)). lia.
Qed.

(** [safePath] leaves no path separator ("/" or "\") and no NUL byte in
    its result, so the default output file of [zcert make] is always
    created in the working directory. *)
Theorem safePath_no_separators (s : string) :
  str_elem "/" (safePath s) = false /\ str_elem "\" (safePath s) = false /\
  str_elem nul (safePath s) = false.
Proof.
  split; [|split]; apply safePath_avoids; reflexivity.
Qed.

Lemma add_hosts_keeps_rest (s : Z) (hosts : list string) :
  let t := add_hosts (leaf_template s) hosts in
  t.(SerialNumber) = s /\
  t.(Subject) = mkName ["zcert development certificate"] [user_and_hostname] "" /\
  t.(IsCA) = false /\ t.(ExtKeyUsages) = [].
Proof.
  destruct (add_hosts_fields hosts (leaf_template s)) as (_ & _ & _ & _ & Hr).
  unfold leaf_rest in Hr. simpl in Hr. injection Hr as E1 E2 E3 E4 E5 E6. cbn zeta. auto.
Qed.

(** The key usages and subject [MakeCert] gives a leaf it writes: a client
    certificate gets ClientAuth and ServerAuth and the first name as its
    common name; a server certificate gets ServerAuth when it has an IP
    address or a DNS name, and no usage otherwise; any email address adds
    CodeSigning and EmailProtection. The alternative names are those the
    loop over the names collected. *)
Theorem makecert_leaf_usages (env : mc_env) (clientCert : bool) (hosts : list string)
    (blocks : list pem_block) :
  MakeCert env clientCert hosts = Ok blocks ->
  exists s priv leaf cacert cakey,
    env.(env_serial) = Some s /\
    blocks = [KeyBlock priv; CertBlock leaf cacert cakey] /\
    let t := add_hosts (leaf_template s) hosts in
    leaf.(IPAddresses) = t.(IPAddresses) /\ leaf.(EmailAddresses) = t.(EmailAddresses) /\
    leaf.(URIs) = t.(URIs) /\ leaf.(DNSNames) = t.(DNSNames) /\
    leaf.(Subject) = mkName ["zcert development certificate"] [user_and_hostname]
                            (if clientCert then hd "" hosts else "") /\
    leaf.(ExtKeyUsages) =
      (if clientCert then [ExtKeyUsageClientAuth; ExtKeyUsageServerAuth]
       else if negb (bool_decide (t.(IPAddresses) = [])) || negb (bool_decide (t.(DNSNames) = []))
       then [ExtKeyUsageServerAuth] else []) ++
      (if bool_decide (t.(EmailAddresses) = []) then []
       else [ExtKeyUsageCodeSigning; ExtKeyUsageEmailProtection]).
Proof.
  intros H. unfold MakeCert in H.
  destruct (match env_root env with Some r => Some r | None => env_load env end)
    as [[cacert cakey]|]; [|discriminate].
  destruct (env_serial env) as [s|] eqn:Es; [|discriminate].
  pose proof (add_hosts_keeps_rest s hosts) as K. cbn zeta in K.
  exists s. cbn zeta.
  remember (add_hosts (leaf_template s) hosts) as t eqn:Et. clear Et.
  destruct K as (_ & Hsub & _ & Heku).
  destruct t as [ts tsub tpk tski tca tips tem turi tdns teku]; cbn in *; subst.
  destruct clientCert; [destruct hosts as [|h0 rest]; [cbn in H; discriminate|]|];
    destruct (env_key env) as [priv|];
    destruct (env_sign_ok env), (env_write1_ok env), (env_write2_ok env);
    cbn in H; try discriminate;
    repeat match type of H with context [bool_decide ?p] => destruct (bool_decide p) eqn:? end;
    cbn in H; try discriminate; injection H as H; subst blocks;
    do 4 eexists; (split; [reflexivity|]); (split; [reflexivity|]);
    repeat match goal with
           | E : bool_decide _ = true |- _ => apply bool_decide_eq_true_1 in E
           | E : bool_decide _ = false |- _ => apply bool_decide_eq_false_1 in E
           end;
    repeat case_bool_decide; try contradiction; cbn; repeat split.
Qed.

(** Witness of [makecert_leaf_usages]: a client certificate for a DNS name
    and an email address. *)
Lemma makecert_leaf_usages_witness :
  exists blocks,
    MakeCert env_all_ok true ["example.com"; "me@example.com"] = Ok blocks /\
    exists s priv leaf cacert cakey,
      env_all_ok.(env_serial) = Some s /\
      blocks = [KeyBlock priv; CertBlock leaf cacert cakey] /\
      leaf.(Subject) = mkName ["zcert development certificate"] [user_and_hostname] "example.com" /\
      leaf.(ExtKeyUsages) = [ExtKeyUsageClientAuth; ExtKeyUsageServerAuth;
                              ExtKeyUsageCodeSigning; ExtKeyUsageEmailProtection].
Proof.
  eexists. split; [vm_compute; reflexivity|].
  destruct (makecert_leaf_usages env_all_ok true ["example.com"; "me@example.com"] _ eq_refl)
    as (s & priv & leaf & cacert & cakey & Es & Eb & _ & _ & _ & _ & Hsub & Heku).
  cbn in Es. injection Es as <-.
  exists 42%Z, priv, leaf, cacert, cakey.
  split; [reflexivity|]. split; [exact Eb|]. split.
  - rewrite Hsub. reflexivity.
  - rewrite Heku. vm_compute. reflexivity.
Defined.

Lemma makecert_ok_inv (env : mc_env) (clientCert : bool) (hosts : list string)
    (blocks : list pem_block) :
  MakeCert env clientCert hosts = Ok blocks ->
  exists s priv leaf cacert cakey,
    (match env.(env_root) with Some r => Some r | None => env.(env_load) end)
      = Some (cacert, cakey) /\
    env.(env_serial) = Some s /\ env.(env_key) = Some priv /\
    blocks = [KeyBlock priv; CertBlock leaf cacert cakey] /\
    leaf.(SerialNumber) = s /\ leaf.(CertPublicKey) = Some (Public priv) /\
    leaf.(IsCA) = false.
Proof.
  intros H. unfold MakeCert in H.
  destruct (match env_root env with Some r => Some r | None => env_load env end)
    as [[cacert cakey]|] eqn:Er; [|discriminate].
  destruct (env_serial env) as [s|] eqn:Es; [|discriminate].
  pose proof (add_hosts_keeps_rest s hosts) as K. cbn zeta in K.
  remember (add_hosts (leaf_template s) hosts) as t eqn:Et. clear Et.
  destruct K as (Hser & _ & Hca & _).
  destruct t as [ts tsub tpk tski tca tips tem turi tdns teku]; cbn in *; subst.
  destruct clientCert; [destruct hosts as [|h0 rest]; [cbn in H; discriminate|]|];
    destruct (env_key env) as [priv|];
    destruct (env_sign_ok env), (env_write1_ok env), (env_write2_ok env);
    cbn in H; try discriminate;
    repeat match type of H with context [bool_decide ?p] => destruct (bool_decide p) end;
    cbn in H; try discriminate; injection H as H; subst blocks;
    do 5 eexists; do 4 (split; [reflexivity|]);
    repeat match goal with |- context [bool_decide ?p] => destruct (bool_decide p) end;
    repeat split.
Qed.

(** What [MakeCert] writes when it succeeds: the key it drew, then a leaf
    that is no CA, carries the drawn serial number and the public half of
    that key, and is signed by the root the [CARoot] value holds, or by
    the one [Load] reads when it holds none. *)
Theorem makecert_leaf_from_root (env : mc_env) (clientCert : bool) (hosts : list string)
    (blocks : list pem_block) :
  MakeCert env clientCert hosts = Ok blocks ->
  exists s priv leaf cacert cakey,
    (env.(env_root) = Some (cacert, cakey) \/
     env.(env_root) = None /\ env.(env_load) = Some (cacert, cakey)) /\
    env.(env_serial) = Some s /\ env.(env_key) = Some priv /\
    blocks = [KeyBlock priv; CertBlock leaf cacert cakey] /\
    leaf.(SerialNumber) = s /\ leaf.(CertPublicKey) = Some (Public priv) /\
    leaf.(IsCA) = false.
Proof.
  intros H.
  destruct (makecert_ok_inv env clientCert hosts blocks H)
    as (s & priv & leaf & cacert & cakey & Hr & Hrest).
  exists s, priv, leaf, cacert, cakey. split; [|exact Hrest].
  destruct (env_root env) as [r|]; [left; exact Hr|right; split; [reflexivity|exact Hr]].
Qed.

(** Witness of [makecert_leaf_from_root]: a server certificate from the
    root loaded from disk. *)
Lemma makecert_leaf_from_root_witness :
  let env := mkEnv None (Some (mkCert 7 (mkName [] [] "zcert") None (Some (Public 11%Z))
                                 true [] [] [] [] [], 11%Z))
                   (Some 42%Z) (Some 5%Z) true true true in
  exists blocks,
    MakeCert env false ["localhost"] = Ok blocks /\
    exists s priv leaf cacert cakey,
      (env.(env_root) = Some (cacert, cakey) \/
       env.(env_root) = None /\ env.(env_load) = Some (cacert, cakey)) /\
      env.(env_serial) = Some s /\ env.(env_key) = Some priv /\
      blocks = [KeyBlock priv; CertBlock leaf cacert cakey] /\
      leaf.(SerialNumber) = s /\ leaf.(CertPublicKey) = Some (Public priv) /\
      leaf.(IsCA) = false.
Proof.
  intros env. eexists. split; [vm_compute; reflexivity|].
  apply (makecert_leaf_from_root env false ["localhost"]). vm_compute. reflexivity.
Defined.

(** [MakeTLSCert] passes on the errors and panics of [MakeCert]. When
    [MakeCert] succeeds, [tls.X509KeyPair] rejects the leaf exactly when
    one of its URI names has a host that [x509.ParseCertificate] refuses
    (an empty label, a trailing dot, or a character outside 33-126),
    although [CreateCertificate] signed it; otherwise [MakeTLSCert]
    returns the leaf and the key [MakeCert] wrote. *)
Theorem make_tls_cert_outcome (env : mc_env) (clientCert : bool) (hosts : list string) :
  (forall e, MakeCert env clientCert hosts = Err e -> MakeTLSCert env clientCert hosts = Err e) /\
  (forall e, MakeTLSCert env clientCert hosts = Panic e <-> MakeCert env clientCert hosts = Panic e) /\
  (forall priv leaf cacert cakey,
     MakeCert env clientCert hosts = Ok [KeyBlock priv; CertBlock leaf cacert cakey] ->
     MakeTLSCert env clientCert hosts =
       if existsb bad_uri_host leaf.(URIs)
       then Err "zcert.MakeTLSCert: x509: cannot parse URI: invalid domain"
       else Ok (mkTLS leaf priv)) /\
  (forall t, MakeTLSCert env clientCert hosts = Ok t <->
     existsb bad_uri_host t.(tls_leaf).(URIs) = false /\
     exists cacert cakey,
       MakeCert env clientCert hosts = Ok [KeyBlock t.(tls_key); CertBlock t.(tls_leaf) cacert cakey]).
Proof.
  unfold MakeTLSCert.
  destruct (MakeCert env clientCert hosts) as [blocks|m|m|m] eqn:E.
  - destruct (makecert_ok_inv env clientCert hosts blocks E)
      as (s & priv & leaf & cacert & cakey & _ & _ & _ & -> & _ & Hpk & _).
    cbn [X509KeyPair]. unfold ParseCertificate.
    destruct (existsb bad_uri_host (URIs leaf)) eqn:B.
    + split; [intros e He; discriminate|]. split; [intros e; split; discriminate|].
      split.
      * intros p l c k Hb. injection Hb as <- <- _ _. rewrite B. reflexivity.
      * intros t. split; [discriminate|].
        intros (Hb & c1 & c2 & Hm). injection Hm as _ E2 _ _. rewrite <- E2, B in Hb. discriminate.
    + rewrite bool_decide_eq_true_2 by exact Hpk.
      split; [intros e He; discriminate|]. split; [intros e; split; discriminate|].
      split.
      * intros p l c k Hb. injection Hb as <- <- _ _. rewrite B. reflexivity.
      * intros [l k]. split.
        -- intros Ht. injection Ht as <- <-. split; [exact B|].
           exists cacert, cakey. reflexivity.
        -- intros (_ & c1 & c2 & Hb). injection Hb as -> -> _ _. reflexivity.
  - split; [intros e He; congruence|]. split; [intros e; split; discriminate|].
    split; [intros p l c k Hb; discriminate|].
    intros t. split; [discriminate|]. intros (_ & ? & ? & Hb). discriminate.
  - split; [intros e He; discriminate|]. split; [intros e; split; intros H; congruence|].
    split; [intros p l c k Hb; discriminate|].
    intros t. split; [discriminate|]. intros (_ & ? & ? & Hb). discriminate.
  - split; [intros e He; discriminate|]. split; [intros e; split; discriminate|].
    split; [intros p l c k Hb; discriminate|].
    intros t. split; [discriminate|]. intros (_ & ? & ? & Hb). discriminate.
Qed.

(** A failed issuance is not cached: when the callback returns no
    certificate, the map and the heap are as before, the call is logged,
    and the name is still missing from the map, so the next handshake for
    that name tries [MakeTLSCert] again. *)
Theorem get_certificate_failure_not_cached (envs : nat -> mc_env) (name : string)
    (st st' : tls_state) (r : outcome nat) :
  GetCertificate envs name st = (r, st') -> (forall p, r <> Ok p) ->
  st'.(certs) = st.(certs) /\ st'.(heap) = st.(heap) /\
  st'.(calls) = st.(calls) ++ [(false, [name])] /\
  st'.(certs) !! name = None /\
  fst (GetCertificate envs name st') =
    match MakeTLSCert (envs (List.length st'.(calls))) false [name] with
    | Ok _ => Ok (List.length st'.(heap))
    | Err e => Err e | Panic e => Panic e | Fatal e => Fatal e
    end.
Proof.
  unfold GetCertificate at 1. intros H Hr.
  destruct (certs st !! name) eqn:E.
  { injection H as <- <-. exfalso. exact (Hr _ eq_refl). }
  assert (Hst : st'.(certs) = st.(certs) /\ st'.(heap) = st.(heap) /\
                st'.(calls) = st.(calls) ++ [(false, [name])]).
  { destruct (MakeTLSCert _ _ _); injection H as <- <-;
      [exfalso; exact (Hr _ eq_refl)| | |]; cbn; auto. }
  destruct Hst as (Hc & Hh & Hl).
  assert (E' : st'.(certs) !! name = None) by (rewrite Hc; exact E).
  repeat split; auto.
  clear H. unfold GetCertificate. rewrite E'.
  destruct (MakeTLSCert _ _ _); reflexivity.
Qed.

(** Witness of [get_certificate_failure_not_cached]: no root held and
    none on disk. *)
Lemma get_certificate_failure_not_cached_witness :
  let envs := fun _ : nat => mkEnv None None (Some 42%Z) (Some 5%Z) true true true in
  GetCertificate envs "localhost" tls_init =
    (Err "zcert.MakeCert: zcert.Load: CA certificate doesn't exist",
     mkTLSState ∅ [] [(false, ["localhost"])]) /\
  (forall p, (Err "zcert.MakeCert: zcert.Load: CA certificate doesn't exist" : outcome nat) <> Ok p) /\
  let st' := mkTLSState ∅ [] [(false, ["localhost"])] in
  st'.(certs) = tls_init.(certs) /\ st'.(heap) = tls_init.(heap) /\
  st'.(calls) = tls_init.(calls) ++ [(false, ["localhost"])] /\
  st'.(certs) !! "localhost" = None /\
  fst (GetCertificate envs "localhost" st') =
    match MakeTLSCert (envs (List.length st'.(calls))) false ["localhost"] with
    | Ok _ => Ok (List.length st'.(heap))
    | Err e => Err e | Panic e => Panic e | Fatal e => Fatal e
    end.
Proof.
  intros envs.
  assert (H : GetCertificate envs "localhost" tls_init =
    (Err "zcert.MakeCert: zcert.Load: CA certificate doesn't exist",
     mkTLSState ∅ [] [(false, ["localhost"])])) by reflexivity.
  assert (Hr : forall p, (Err "zcert.MakeCert: zcert.Load: CA certificate doesn't exist" : outcome nat) <> Ok p)
    by discriminate.
  split; [exact H|]. split; [exact Hr|].
  exact (get_certificate_failure_not_cached envs "localhost" tls_init _ _ H Hr).
Defined.

Lemma prefixes_self (p : path) : p ∈ prefixes p.
Proof.
  apply list_elem_of_In.
  induction p as [|c p IH]; cbn [prefixes].
  - left. reflexivity.
  - right. apply in_map. exact IH.
Qed.

Lemma MkdirAll_spec (f f' : fs) (p : path) :
  MkdirAll f p = Ok f' ->
  f'.(files) = f.(files) /\ p ∈ f'.(dirs) /\ f.(dirs) ⊆ f'.(dirs).
Proof.
  unfold MkdirAll. intros H.
  destruct (existsb _ _); [discriminate|]. injection H as <-. cbn [files dirs].
  split; [reflexivity|]. split.
  - apply elem_of_union_l. apply elem_of_list_to_set. apply prefixes_self.
  - apply union_subseteq_r.
Qed.

Lemma WriteFile_new (r : bool) (u : N) (f f' : fs) (p : path) (d : file_data) (m : N) :
  f.(files) !! p = None -> WriteFile r u f p d m = Ok f' ->
  f'.(files) = <[p := mkFile d (N.ldiff m u)]> f.(files) /\ f'.(dirs) = f.(dirs).
Proof.
  unfold WriteFile. intros Hp H.
  destruct (bool_decide (parent p ∉ dirs f)); [discriminate|].
  destruct (bool_decide (p ∈ dirs f)); [discriminate|].
  rewrite Hp in H. injection H as <-. split; reflexivity.
Qed.

Lemma WriteFile_old_readonly (u : N) (f : fs) (p : path) (d : file_data) (m : N) (old : file) :
  f.(files) !! p = Some old -> N.testbit old.(fmode) 7 = false ->
  exists msg, WriteFile false u f p d m = Err msg.
Proof.
  unfold WriteFile. intros Hp Hm.
  destruct (bool_decide (parent p ∉ dirs f)); [eauto|].
  destruct (bool_decide (p ∈ dirs f)); [eauto|].
  rewrite Hp, Hm. cbn. eauto.
Qed.

Lemma pathExists_false_file (f : fs) (p : path) :
  pathExists f p = false -> f.(files) !! p = None.
Proof.
  unfold pathExists. intros H. apply orb_false_iff in H as [H _].
  apply bool_decide_eq_false_1 in H. apply eq_None_not_Some. exact H.
Qed.

(** Every failure of [Create] leaves the [CARoot] value as it was, and
    is reported as an error (never a panic). *)
Theorem create_error_keeps_root (e : sysenv) (d : create_draws) (ca ca' : CARoot)
    (f f' : fs) (r : outcome unit) :
  Create e d ca f = (r, ca', f') ->
  r = Ok tt \/ (ca' = ca /\ exists m, r = Err m).
Proof.
  unfold Create. intros H.
  destruct (StorePath e) as [[rc rk]|]; [|injection H as <- <- _; eauto].
  destruct (Exists e f); [injection H as <- <- _; eauto|].
  destruct (MkdirAll f (parent rc)) as [f2| | |];
    [|injection H as <- <- _; eauto ..].
  destruct (cd_key d) as [k|]; [|injection H as <- <- _; eauto].
  destruct (cd_serial d) as [sr|]; [|injection H as <- <- _; eauto].
  destruct (cd_sign_ok d); [|injection H as <- <- _; eauto]. cbn [negb] in H.
  destruct (WriteFile _ _ f2 rk _ _) as [f3| | |]; [|injection H as <- <- _; eauto ..].
  destruct (WriteFile _ _ f3 rc _ _) as [f4| | |]; [injection H as <- _ _; auto|..];
    injection H as <- <- _; eauto.
Qed.

(** Witness of [create_error_keeps_root]: the signing fails. *)
Lemma create_error_keeps_root_witness :
  Create sys0 (mkDraws (Some 11%Z) (Some 7%Z) false) ca_empty fs0 =
    (Err "zcert.Create: generate CA certificate", ca_empty,
     mkFS ∅ (list_to_set (prefixes ca_dir) ∪ {[ [] ]})) /\
  ((Err "zcert.Create: generate CA certificate" : outcome unit) = Ok tt \/
   (ca_empty = ca_empty /\ exists m, (Err "zcert.Create: generate CA certificate" : outcome unit) = Err m)).
Proof.
  assert (H : Create sys0 (mkDraws (Some 11%Z) (Some 7%Z) false) ca_empty fs0 =
    (Err "zcert.Create: generate CA certificate", ca_empty,
     mkFS ∅ (list_to_set (prefixes ca_dir) ∪ {[ [] ]}))) by reflexivity.
  split; [exact H|]. exact (create_error_keeps_root _ _ _ _ _ _ _ H).
Defined.

(** [Create] never replaces a root: with no place to store it, or with a
    certificate file already there, it fails before touching the disk or
    the [CARoot] value. *)
Theorem create_refuses_existing (e : sysenv) (d : create_draws) (ca : CARoot) (f : fs) :
  StorePath e = None \/ Exists e f = true ->
  exists m, Create e d ca f = (Err m, ca, f).
Proof.
  unfold Create. intros [H|H].
  - rewrite H. eauto.
  - destruct (StorePath e) as [[rc rk]|]; [rewrite H|]; eauto.
Qed.

(** Witness of [create_refuses_existing]: both root files are there. *)
Lemma create_refuses_existing_witness :
  (StorePath sys0 = None \/ Exists sys0 fs_both = true) /\
  exists m, Create sys0 draws0 ca_empty fs_both = (Err m, ca_empty, fs_both).
Proof.
  assert (H : StorePath sys0 = None \/ Exists sys0 fs_both = true) by (right; reflexivity).
  split; [exact H|]. exact (create_refuses_existing sys0 draws0 ca_empty fs_both H).
Defined.

(** What a successful [Create] leaves on disk when no key file was there:
    the PKCS#8 key the draw gave, with mode 0400 less the umask, and a
    CA certificate for its public key with the drawn serial, with mode
    0644 less the umask, in a directory that now exists; no other file
    changes. *)
Theorem create_writes_root (e : sysenv) (d : create_draws) (ca ca1 : CARoot) (f f1 : fs)
    (rc rk : path) :
  StorePath e = Some (rc, rk) -> f.(files) !! rk = None ->
  Create e d ca f = (Ok tt, ca1, f1) ->
  exists k der,
    d.(cd_key) = Some k /\ d.(cd_serial) = Some der.(SerialNumber) /\
    f1.(files) !! rk = Some (mkFile (PemPrivateKey k) (N.ldiff 256 e.(umask))) /\
    f1.(files) !! rc = Some (mkFile (PemCertificate der) (N.ldiff 420 e.(umask))) /\
    der.(IsCA) = true /\ der.(CertPublicKey) = Some (Public k) /\
    parent rc ∈ f1.(dirs) /\
    (forall q, q <> rc -> q <> rk -> f1.(files) !! q = f.(files) !! q).
Proof.
  intros HS Hk H. pose proof (StorePath_distinct e rc rk HS) as Hne.
  unfold Create in H. rewrite HS in H.
  destruct (Exists e f) eqn:Ex; [discriminate|].
  rewrite (Exists_cert_only e f rc rk HS) in Ex. apply pathExists_false_file in Ex.
  destruct (MkdirAll f (parent rc)) as [f2| | |] eqn:Em; try discriminate.
  destruct (MkdirAll_spec f f2 (parent rc) Em) as (Hf2 & Hd2 & _).
  destruct (cd_key d) as [k|]; [|discriminate].
  destruct (cd_serial d) as [sr|]; [|discriminate].
  destruct (cd_sign_ok d); [|discriminate]. cbn [negb] in H.
  destruct (WriteFile _ _ f2 rk _ _) as [f3| | |] eqn:W1; try discriminate.
  destruct (WriteFile _ _ f3 rc _ _) as [f4| | |] eqn:W2; try discriminate.
  injection H as <- <-.
  destruct (WriteFile_new _ _ _ _ _ _ _ ltac:(rewrite Hf2; exact Hk) W1) as [Hf3 Hd3].
  assert (Hrc3 : f3.(files) !! rc = None).
  { rewrite Hf3, lookup_insert_ne by congruence. rewrite Hf2. exact Ex. }
  destruct (WriteFile_new _ _ _ _ _ _ _ Hrc3 W2) as [Hf4 Hd4].
  match type of W2 with WriteFile _ _ _ _ (PemCertificate ?der) _ = _ => exists k, der end.
  split; [reflexivity|]. split; [reflexivity|].
  split; [rewrite Hf4, lookup_insert_ne, Hf3, lookup_insert_eq by congruence; reflexivity|].
  split; [rewrite Hf4, lookup_insert_eq; reflexivity|].
  split; [reflexivity|]. split; [reflexivity|].
  split; [rewrite Hd4, Hd3; exact Hd2|].
  intros q Hq1 Hq2. rewrite Hf4, lookup_insert_ne, Hf3, lookup_insert_ne, Hf2 by congruence.
  reflexivity.
Qed.

(** Witness of [create_writes_root]: a first [Create] on an empty disk. *)
Lemma create_writes_root_witness :
  StorePath sys0 = Some (ca_cert_path, ca_key_path) /\ fs0.(files) !! ca_key_path = None /\
  exists ca1 f1,
    Create sys0 draws0 ca_empty fs0 = (Ok tt, ca1, f1) /\
    exists k der,
      draws0.(cd_key) = Some k /\ draws0.(cd_serial) = Some der.(SerialNumber) /\
      f1.(files) !! ca_key_path = Some (mkFile (PemPrivateKey k) (N.ldiff 256 sys0.(umask))) /\
      f1.(files) !! ca_cert_path = Some (mkFile (PemCertificate der) (N.ldiff 420 sys0.(umask))) /\
      der.(IsCA) = true /\ der.(CertPublicKey) = Some (Public k) /\
      parent ca_cert_path ∈ f1.(dirs) /\
      (forall q, q <> ca_cert_path -> q <> ca_key_path -> f1.(files) !! q = fs0.(files) !! q).
Proof.
  assert (HS : StorePath sys0 = Some (ca_cert_path, ca_key_path)) by reflexivity.
  assert (Hk : fs0.(files) !! ca_key_path = None) by reflexivity.
  split; [exact HS|]. split; [exact Hk|].
  destruct (Create sys0 draws0 ca_empty fs0) as [[r ca1] f1] eqn:Hc.
  assert (Hr : r = Ok tt) by (vm_compute in Hc; injection Hc as <- _ _; reflexivity).
  subst r. exists ca1, f1. split; [reflexivity|].
  exact (create_writes_root sys0 draws0 ca_empty ca1 fs0 f1 _ _ HS Hk Hc).
Defined.

(** A key file left behind with its mode 0400 (by an earlier [Create]
    whose certificate file is gone) makes [Create] fail when it comes to
    write the key, unless the process runs as root: [ioutil.WriteFile]
    does not change the mode of an existing file. *)
Theorem create_blocked_by_readonly_key (e : sysenv) (d : create_draws) (ca : CARoot)
    (f f1 : fs) (rc rk : path) (old : file) (k : PrivateKey) (sr : Z) :
  StorePath e = Some (rc, rk) -> Exists e f = false ->
  MkdirAll f (parent rc) = Ok f1 ->
  f.(files) !! rk = Some old -> N.testbit old.(fmode) 7 = false ->
  e.(running_as_root) = false ->
  d.(cd_key) = Some k -> d.(cd_serial) = Some sr -> d.(cd_sign_ok) = true ->
  Create e d ca f = (Err "zcert.Create: save CA key", ca, f1).
Proof.
  intros HS Ex Hm Hold Hmode Hroot Hk Hs Hsign.
  unfold Create. rewrite HS, Ex, Hm, Hk, Hs, Hsign, Hroot. cbn [negb].
  destruct (MkdirAll_spec f f1 (parent rc) Hm) as (Hf1 & _ & _).
  destruct (WriteFile_old_readonly e.(umask) f1 rk (PemPrivateKey k) 256%N old
              ltac:(rewrite Hf1; exact Hold) Hmode) as [msg ->].
  reflexivity.
Qed.

(** Witness of [create_blocked_by_readonly_key]: the orphan key of
    [fs_key_only]. *)
Lemma create_blocked_by_readonly_key_witness :
  MkdirAll fs_key_only (parent ca_cert_path) = Ok (mkFS fs_key_only.(files) (list_to_set (prefixes ca_dir) ∪ fs_key_only.(dirs))) /\
  Create sys0 draws0 ca_empty fs_key_only =
    (Err "zcert.Create: save CA key", ca_empty,
     mkFS fs_key_only.(files) (list_to_set (prefixes ca_dir) ∪ fs_key_only.(dirs))).
Proof.
  assert (Hm : MkdirAll fs_key_only (parent ca_cert_path) =
    Ok (mkFS fs_key_only.(files) (list_to_set (prefixes ca_dir) ∪ fs_key_only.(dirs))))
    by reflexivity.
  split; [exact Hm|].
  apply (create_blocked_by_readonly_key sys0 draws0 ca_empty fs_key_only _ ca_cert_path ca_key_path
           (mkFile (PemPrivateKey 11%Z) 256%N) 11%Z 7%Z);
    [reflexivity|reflexivity|exact Hm|reflexivity|reflexivity|reflexivity|reflexivity|reflexivity|reflexivity].
Defined.

Lemma Load_inv (e : sysenv) (ca ca' : CARoot) (f : fs) (r : outcome unit) :
  Load e ca f = (r, ca') ->
  (r = Ok tt /\
   exists rc rk c k, StorePath e = Some (rc, rk) /\ ca' = mkCA (Some c) (Some k) /\
     (exists m1, f.(files) !! rc = Some (mkFile (PemCertificate c) m1)) /\
     (exists m2, f.(files) !! rk = Some (mkFile (PemPrivateKey k) m2)) /\
     c.(CertPublicKey) = Some (Public k)) \/
  (ca' = ca /\ exists m, r = Err m).
Proof.
  unfold Load. intros H.
  destruct (negb (Exists e f)); [injection H as <- <-; eauto|].
  destruct (StorePath e) as [[rc rk]|] eqn:HS; [|injection H as <- <-; eauto].
  unfold LoadX509KeyPair in H.
  destruct (files f !! rc) as [[dc m1]|] eqn:Ec; [|injection H as <- <-; eauto].
  destruct (negb (readable _ _)); [injection H as <- <-; eauto|].
  destruct dc as [c| |]; cbn [fdata] in H; try (injection H as <- <-; eauto; fail).
  destruct (files f !! rk) as [[dk m2]|] eqn:Ek; [|injection H as <- <-; eauto].
  destruct (negb (readable _ _)); [injection H as <- <-; eauto|].
  destruct dk as [|k|]; cbn [fdata] in H; try (injection H as <- <-; eauto; fail).
  destruct (ParseCertificate c) as [pc| | |] eqn:Hp; try (injection H as <- <-; eauto; fail).
  assert (Hpc : pc = c).
  { unfold ParseCertificate in Hp. destruct (existsb _ _); [discriminate|].
    injection Hp as <-. reflexivity. }
  subst pc.
  destruct (bool_decide (CertPublicKey c = Some (Public k))) eqn:Hb;
    [|injection H as <- <-; eauto].
  injection H as <- <-. left. split; [reflexivity|].
  apply bool_decide_eq_true_1 in Hb. exists rc, rk, c, k.
  split; [reflexivity|]. split; [reflexivity|].
  split; [exists m1; exact Ec|]. split; [exists m2; exact Ek|]. exact Hb.
Qed.

(** [Load] either fills the [CARoot] with the certificate and the key
    read from the two store paths, whose public keys match, or fails
    with an error and leaves the [CARoot] as it was. *)
Theorem load_outcome (e : sysenv) (ca ca' : CARoot) (f : fs) (r : outcome unit) :
  Load e ca f = (r, ca') ->
  (r = Ok tt /\
   exists rc rk c k, StorePath e = Some (rc, rk) /\ ca' = mkCA (Some c) (Some k) /\
     (exists m1, f.(files) !! rc = Some (mkFile (PemCertificate c) m1)) /\
     (exists m2, f.(files) !! rk = Some (mkFile (PemPrivateKey k) m2)) /\
     c.(CertPublicKey) = Some (Public k)) \/
  (ca' = ca /\ exists m, r = Err m).
Proof. apply Load_inv. Qed.

(** Witness of [load_outcome]: the store files hold no PEM blocks. *)
Lemma load_outcome_witness :
  Load sys0 ca_empty fs_extra = (Err "zcert.Load: tls", ca_empty) /\
  (((Err "zcert.Load: tls" : outcome unit) = Ok tt /\
    exists rc rk c k, StorePath sys0 = Some (rc, rk) /\ ca_empty = mkCA (Some c) (Some k) /\
      (exists m1, fs_extra.(files) !! rc = Some (mkFile (PemCertificate c) m1)) /\
      (exists m2, fs_extra.(files) !! rk = Some (mkFile (PemPrivateKey k) m2)) /\
      c.(CertPublicKey) = Some (Public k)) \/
   (ca_empty = ca_empty /\ exists m, (Err "zcert.Load: tls" : outcome unit) = Err m)).
Proof.
  assert (H : Load sys0 ca_empty fs_extra = (Err "zcert.Load: tls", ca_empty)) by reflexivity.
  split; [exact H|]. exact (load_outcome _ _ _ _ _ H).
Defined.

(** When a root certificate file exists, [New] only reads: the disk is
    unchanged, [created] is false, and the [CARoot] it returns is either
    a matching certificate and key or, on error, the zero value. *)
Theorem new_existing_root_reads_only (e : sysenv) (d : create_draws) (f f' : fs)
    (ca : CARoot) (created : bool) (r : outcome unit) :
  Exists e f = true -> New e d f = (ca, created, r, f') ->
  f' = f /\ created = false /\
  ((r = Ok tt /\ exists c k, ca = mkCA (Some c) (Some k) /\ c.(CertPublicKey) = Some (Public k)) \/
   (ca = ca_empty /\ exists m, r = Err m)).
Proof.
  unfold New. intros Ex H. rewrite Ex in H. cbn [negb] in H.
  destruct (Load e ca_empty f) as [r0 ca0] eqn:HL.
  injection H as <- <- <- <-. split; [reflexivity|]. split; [reflexivity|].
  destruct (Load_inv e ca_empty ca0 f r0 HL)
    as [(-> & rc & rk & c & k & _ & -> & _ & _ & Hpk)|(-> & m & ->)].
  - left. split; [reflexivity|]. eauto.
  - right. eauto.
Qed.

(** Witness of [new_existing_root_reads_only]: unreadable root files. *)
Lemma new_existing_root_reads_only_witness :
  Exists sys0 fs_extra = true /\
  New sys0 draws0 fs_extra = (ca_empty, false, Err "zcert.Load: tls", fs_extra) /\
  fs_extra = fs_extra /\ false = false /\
  (((Err "zcert.Load: tls" : outcome unit) = Ok tt /\
    exists c k, ca_empty = mkCA (Some c) (Some k) /\ c.(CertPublicKey) = Some (Public k)) \/
   (ca_empty = ca_empty /\ exists m, (Err "zcert.Load: tls" : outcome unit) = Err m)).
Proof.
  assert (Ex : Exists sys0 fs_extra = true) by reflexivity.
  assert (H : New sys0 draws0 fs_extra = (ca_empty, false, Err "zcert.Load: tls", fs_extra))
    by reflexivity.
  split; [exact Ex|]. split; [exact H|].
  exact (new_existing_root_reads_only sys0 draws0 fs_extra fs_extra _ _ _ Ex H).
Defined.

Lemma omap_cons_eq {A B} (g : A -> option B) (x : A) (l : list A) :
  omap g (x :: l) = match g x with Some y => y :: omap g l | None => omap g l end.
Proof. reflexivity. Qed.

Lemma forEachProfile_go_spec (ne : nss_env) (f : string -> option string)
    (ps : list string) (found : nat) :
  match forEachProfile_go ne f ps found with
  | (n, None, cs) =>
      cs = omap (nss_arg ne) ps /\ n = found + List.length cs /\
      Forall (fun a => f a = None) cs
  | (n, Some e, cs) =>
      n = 0 /\ exists pre a rest, cs = pre ++ [a] /\
        omap (nss_arg ne) ps = pre ++ a :: rest /\ f a = Some e /\
        Forall (fun b => f b = None) pre
  end.
Proof.
  revert found. induction ps as [|p ps IH]; intros found.
  - cbn. split; [reflexivity|]. split; [lia|constructor].
  - cbn [forEachProfile_go]. rewrite omap_cons_eq.
    set (L := omap (nss_arg ne) ps) in *. unfold nss_arg.
    destruct (nss_is_dir ne p); cbn [negb]; [|apply IH].
    assert (Step : forall a, f a = None ->
      match (let '(n, err, cs) := forEachProfile_go ne f ps (S found) in (n, err, a :: cs)) with
      | (n, None, cs) => cs = a :: L /\ n = found + List.length cs /\
                         Forall (fun a => f a = None) cs
      | (n, Some e, cs) => n = 0 /\ exists pre a' rest, cs = pre ++ [a'] /\
                           a :: L = pre ++ a' :: rest /\ f a' = Some e /\
                           Forall (fun b => f b = None) pre
      end).
    { intros a Fa. specialize (IH (S found)).
      destruct (forEachProfile_go ne f ps (S found)) as [[n [e|]] cs].
      - destruct IH as (Hn & pre & a' & rest & Hcs & Hom & Ha & Hpre).
        split; [exact Hn|]. exists (a :: pre), a', rest. rewrite Hcs, Hom.
        split; [reflexivity|]. split; [reflexivity|]. split; [exact Ha|constructor; auto].
      - destruct IH as (Hcs & Hn & Hall). subst cs.
        split; [reflexivity|]. split; [cbn [List.length]; lia|constructor; auto]. }
    assert (Stop : forall a e, f a = Some e ->
      0 = 0 /\ exists pre a' rest, [a] = pre ++ [a'] /\ a :: L = pre ++ a' :: rest /\
        f a' = Some e /\ Forall (fun b => f b = None) pre).
    { intros a e Fa. split; [reflexivity|]. exists [], a, L.
      split; [reflexivity|]. split; [reflexivity|]. split; [exact Fa|constructor]. }
    destruct (nss_cert9 ne p); [|destruct (nss_cert8 ne p); [|apply IH]];
      (destruct (f _) as [e|] eqn:F; [apply Stop; exact F|apply Step; exact F]).
Qed.

Lemma NSS_HasCert_spec (ne : nss_env) (certutilV : string -> bool) :
  NSS_HasCert ne certutilV = true <->
  omap (nss_arg ne) ne.(nss_profiles) <> [] /\
  Forall (fun a => certutilV a = false) (omap (nss_arg ne) ne.(nss_profiles)).
Proof.
  unfold NSS_HasCert, forEachProfile.
  set (f := fun prof => if certutilV prof then Some "exit status 255"%string else None).
  pose proof (forEachProfile_go_spec ne f (nss_profiles ne) 0) as S.
  assert (Hf : forall a, f a = None <-> certutilV a = false).
  { intros a. unfold f. destruct (certutilV a); split; congruence. }
  destruct (forEachProfile_go ne f (nss_profiles ne) 0) as [[n [e|]] cs].
  - destruct S as (_ & pre & a & rest & _ & Hom & Ha & _). rewrite Hom.
    split; [discriminate|]. intros [_ Hall].
    apply Forall_app in Hall as [_ Hall]. inversion Hall as [|? ? Hv]; subst.
    apply Hf in Hv. congruence.
  - destruct S as (Hcs & Hn & Hall). rewrite <- Hcs. subst n.
    rewrite Nat.ltb_lt. split.
    + intros Hlt. split; [intros ->; cbn in Hlt; lia|].
      eapply Forall_impl; [exact Hall|]. intros a. apply Hf.
    + intros [Hne Hv]. destruct cs; [congruence|cbn; lia].
Qed.

Lemma Forall_omap_first {A} (P : A -> Prop) (pre rest : list A) (a : A) :
  Forall P (pre ++ a :: rest) -> P a.
Proof. intros H. apply Forall_app in H as [_ H]. inversion H; assumption. Qed.

(** [forEachProfile] calls its callback once for each profile directory
    holding a [cert9.db] ("sql:" prefix) or else a [cert8.db] ("dbm:"
    prefix), in the order of the profile list; with no error it returns
    their number. At the first error it stops and returns 0 with that
    error, and the calls made are a prefix of that list. *)
Theorem for_each_profile_calls (ne : nss_env) (f : string -> option string) :
  match forEachProfile ne f with
  | (n, None, cs) =>
      cs = omap (nss_arg ne) ne.(nss_profiles) /\ n = List.length cs
  | (n, Some e, cs) =>
      n = 0 /\ exists pre a rest, cs = pre ++ [a] /\
        omap (nss_arg ne) ne.(nss_profiles) = pre ++ a :: rest /\ f a = Some e /\
        Forall (fun b => f b = None) pre
  end.
Proof.
  unfold forEachProfile.
  pose proof (forEachProfile_go_spec ne f (nss_profiles ne) 0) as S.
  destruct (forEachProfile_go ne f (nss_profiles ne) 0) as [[n [e|]] cs]; [exact S|].
  destruct S as (Hcs & Hn & _). split; [exact Hcs|]. lia.
Qed.

(** [NSS.HasCert] holds exactly when at least one NSS database is found
    and [certutil -V] succeeds on every one of them. *)
Theorem nss_hascert_iff (ne : nss_env) (certutilV : string -> bool) :
  NSS_HasCert ne certutilV = true <->
  omap (nss_arg ne) ne.(nss_profiles) <> [] /\
  Forall (fun a => certutilV a = false) (omap (nss_arg ne) ne.(nss_profiles)).
Proof. apply NSS_HasCert_spec. Qed.

(** [NSS.Install] returns nil exactly when at least one NSS database is
    found, [certutil -A] succeeds on every one, and the [-V] check then
    succeeds on every one. *)
Theorem nss_install_ok_iff (ne : nss_env) (certutilA : string -> string * bool)
    (certutilV : string -> bool) :
  NSS_Install ne certutilA certutilV = None <->
  omap (nss_arg ne) ne.(nss_profiles) <> [] /\
  Forall (fun a => snd (certutilA a) = false) (omap (nss_arg ne) ne.(nss_profiles)) /\
  Forall (fun a => certutilV a = false) (omap (nss_arg ne) ne.(nss_profiles)).
Proof.
  unfold NSS_Install, forEachProfile.
  set (fA := fun prof => let '(out, failed) := certutilA prof in
                         if failed then Some ("certutil -A -d " ++ prof ++ ": " ++ out)%string
                         else None).
  assert (HfA : forall a, fA a = None <-> snd (certutilA a) = false).
  { intros a. unfold fA. destruct (certutilA a) as [o [|]]; cbn; split; congruence. }
  pose proof (forEachProfile_go_spec ne fA (nss_profiles ne) 0) as S.
  destruct (forEachProfile_go ne fA (nss_profiles ne) 0) as [[n [e|]] cs].
  - destruct S as (_ & pre & a & rest & _ & Hom & Ha & _). rewrite Hom.
    split; [discriminate|]. intros (_ & Hall & _).
    apply Forall_omap_first, HfA in Hall. congruence.
  - destruct S as (Hcs & Hn & Hall). rewrite <- Hcs. subst n. cbn [Nat.add].
    destruct cs as [|c cs]; cbn [List.length Nat.eqb].
    + split; [discriminate|]. intros [H _]. congruence.
    + pose proof (NSS_HasCert_spec ne certutilV) as HV. rewrite <- Hcs in HV.
      assert (HA : Forall (fun a => snd (certutilA a) = false) (c :: cs)).
      { eapply Forall_impl; [exact Hall|]. intros a. apply HfA. }
      destruct (NSS_HasCert ne certutilV).
      * split; [intros _|reflexivity]. split; [discriminate|]. split; [exact HA|].
        apply HV. reflexivity.
      * split; [discriminate|]. intros (Hne & _ & Hv).
        assert (Hf : false = true) by (apply HV; split; assumption). discriminate.
Qed.

(** [NSS.Uninstall] returns nil exactly when, on every NSS database
    found, either [certutil -V] fails (the root is not there, and the
    database is skipped) or [certutil -D] succeeds. *)
Theorem nss_uninstall_ok_iff (ne : nss_env) (certutilV : string -> bool)
    (certutilD : string -> string * bool) :
  NSS_Uninstall ne certutilV certutilD = None <->
  Forall (fun a => certutilV a = true \/ snd (certutilD a) = false)
         (omap (nss_arg ne) ne.(nss_profiles)).
Proof.
  unfold NSS_Uninstall, forEachProfile.
  set (fD := fun prof => if certutilV prof then None
                         else let '(out, failed) := certutilD prof in
                              if failed then Some ("certutil -D -d " ++ prof ++ ": " ++ out)%string
                              else None).
  assert (HfD : forall a, fD a = None <-> certutilV a = true \/ snd (certutilD a) = false).
  { intros a. unfold fD. destruct (certutilV a); [split; auto|].
    destruct (certutilD a) as [o [|]]; cbn; split; try intros [H|H]; try congruence; auto. }
  pose proof (forEachProfile_go_spec ne fD (nss_profiles ne) 0) as S.
  destruct (forEachProfile_go ne fD (nss_profiles ne) 0) as [[n [e|]] cs]; cbn [fst snd].
  - destruct S as (_ & pre & a & rest & _ & Hom & Ha & _). rewrite Hom.
    split; [discriminate|]. intros Hall.
    apply Forall_omap_first, HfD in Hall. congruence.
  - destruct S as (Hcs & _ & Hall). rewrite <- Hcs. split; [intros _|reflexivity].
    eapply Forall_impl; [exact Hall|]. intros a. apply HfD.
Qed.

Lemma privCmd_ran (m : machine) (cmd : list string) (st : pstate) :
  ran (snd (privCmd m cmd st)) = ran st.
Proof. rewrite privCmd_state. reflexivity. Qed.

Lemma privCmd_args_suffix (m : machine) (cmd : list string) (st : pstate) :
  cmd <> [] -> exists pre, CmdArgs (fst (privCmd m cmd st)) = pre ++ cmd.
Proof.
  destruct cmd as [|c0 rest]; [congruence|]. intros _.
  unfold privCmd, Command. cbn [hd tl].
  destruct (bool_decide _); [exists []; reflexivity|].
  destruct (binaryExists m "sudo"); [exists ["sudo"; "--prompt=Sudo password:"; "--"]; reflexivity|].
  destruct (binaryExists m "doas"); [exists ["doas"; "--"]; reflexivity|].
  exists []. destruct (warned st); reflexivity.
Qed.

(** [privCmd] never alters the command it is given: the argv it builds
    ends with that command, after nothing when running as root or with
    no escalation tool, after [sudo --prompt=Sudo password: --] when
    [sudo] is found, and after [doas --] when only [doas] is; the
    environment is left to the parent's. *)
Theorem privCmd_argv (m : machine) (cmd : list string) (st : pstate) :
  cmd <> [] ->
  let c := fst (privCmd m cmd st) in
  c.(CmdEnv) = None /\
  ((c.(CmdArgs) = cmd /\ (m.(m_uid) = Some "0" \/ no_escalation m = true)) \/
   (c.(CmdArgs) = ["sudo"; "--prompt=Sudo password:"; "--"] ++ cmd /\
    m.(m_uid) <> Some "0" /\ binaryExists m "sudo" = true) \/
   (c.(CmdArgs) = ["doas"; "--"] ++ cmd /\ m.(m_uid) <> Some "0" /\
    binaryExists m "sudo" = false /\ binaryExists m "doas" = true)).
Proof.
  destruct cmd as [|c0 rest]; [congruence|]. intros _.
  unfold privCmd, Command, no_escalation. cbn [hd tl].
  destruct (bool_decide (m_uid m = Some "0")) eqn:Hu.
  { apply bool_decide_eq_true_1 in Hu. cbn. split; [reflexivity|]. left. auto. }
  apply bool_decide_eq_false_1 in Hu.
  destruct (binaryExists m "sudo") eqn:Hs.
  { cbn. split; [reflexivity|]. right. left. auto. }
  destruct (binaryExists m "doas") eqn:Hd.
  { cbn. split; [reflexivity|]. right. right. auto. }
  destruct (warned st); cbn; (split; [reflexivity|]); left; split; auto;
    right; rewrite bool_decide_eq_false_2 by exact Hu; reflexivity.
Qed.

(** Witness of [privCmd_argv]: the [tee] of [Unix.Install] under [sudo]. *)
Lemma privCmd_argv_witness :
  ["tee"; "/usr/local/share/ca-certificates/x.crt"] <> [] /\
  let c := fst (privCmd m_sudo ["tee"; "/usr/local/share/ca-certificates/x.crt"] pstate0) in
  c.(CmdEnv) = None /\
  ((c.(CmdArgs) = ["tee"; "/usr/local/share/ca-certificates/x.crt"] /\
    (m_sudo.(m_uid) = Some "0" \/ no_escalation m_sudo = true)) \/
   (c.(CmdArgs) = ["sudo"; "--prompt=Sudo password:"; "--"] ++
                  ["tee"; "/usr/local/share/ca-certificates/x.crt"] /\
    m_sudo.(m_uid) <> Some "0" /\ binaryExists m_sudo "sudo" = true) \/
   (c.(CmdArgs) = ["doas"; "--"] ++ ["tee"; "/usr/local/share/ca-certificates/x.crt"] /\
    m_sudo.(m_uid) <> Some "0" /\
    binaryExists m_sudo "sudo" = false /\ binaryExists m_sudo "doas" = true)).
Proof.
  assert (H : ["tee"; "/usr/local/share/ca-certificates/x.crt"] <> []) by discriminate.
  split; [exact H|]. exact (privCmd_argv m_sudo _ pstate0 H).
Defined.

Lemma CombinedOutput_eq (m : machine) (c : Cmd) (st : pstate) :
  CombinedOutput m c st =
  (fst (m_run m c), snd (m_run m c), mkPState st.(warned) (st.(ran) ++ [c]) st.(stderr)).
Proof. unfold CombinedOutput. destruct (m_run m c); reflexivity. Qed.

(** The two commands [Unix.Install] and [Unix.Uninstall] run, in order:
    the first ([tee] of the certificate, or [rm -f]) names the file
    [systemTrust] gives, the second is the store's [trustCmd]; each runs
    through [privCmd], and a failure of the first stops before the second. *)
Lemma unix_two_step (m : machine) (first tc : list string) (st : pstate)
    (msg : string) :
  first <> [] -> tc <> [] ->
  let '(r, st') :=
    (let '(c1, st1) := privCmd m first st in
     let '(_, failed1, st2) := CombinedOutput m c1 st1 in
     if failed1 then (Some msg, st2) else
     let '(c2, st3) := privCmd m tc st2 in
     let '(_, failed2, st4) := CombinedOutput m c2 st3 in
     if failed2 then (Some msg, st4) else (None, st4)) in
  exists c1 pre1, c1.(CmdArgs) = pre1 ++ first /\
   ((snd (m_run m c1) = true /\ st'.(ran) = st.(ran) ++ [c1] /\ r = Some msg) \/
    (snd (m_run m c1) = false /\ exists c2 pre2, c2.(CmdArgs) = pre2 ++ tc /\
       st'.(ran) = st.(ran) ++ [c1; c2] /\ (r = None <-> snd (m_run m c2) = false))).
Proof.
  intros Hf Htc.
  pose proof (privCmd_args_suffix m first st Hf) as [pre1 H1].
  pose proof (privCmd_ran m first st) as R1.
  destruct (privCmd m first st) as [c1 st1]. cbn [fst snd] in H1, R1.
  rewrite CombinedOutput_eq. cbn [fst snd].
  destruct (snd (m_run m c1)) eqn:F1.
  - exists c1, pre1. split; [exact H1|]. left. cbn. rewrite R1. auto.
  - set (st2 := mkPState (warned st1) (ran st1 ++ [c1]) (stderr st1)).
    pose proof (privCmd_args_suffix m tc st2 Htc) as [pre2 H2].
    pose proof (privCmd_ran m tc st2) as R2.
    destruct (privCmd m tc st2) as [c2 st3]. cbn [fst snd] in H2, R2.
    rewrite CombinedOutput_eq. cbn [fst snd].
    destruct (snd (m_run m c2)) eqn:F2;
      (exists c1, pre1; split; [exact H1|]; right; split; [exact F1|];
       exists c2, pre2; split; [exact H2|]; cbn [ran]; rewrite R2; unfold st2; cbn [ran];
       rewrite R1; split; [rewrite <- app_assoc; reflexivity|]; split; congruence).
Qed.

(** [Unix.Install] with a [trustCmd]: when [ioutil.ReadFile] of the root
    certificate fails it returns an error and runs nothing; otherwise it
    writes the certificate with [tee] into the file [systemTrust] names,
    then runs [trustCmd]; if [tee] fails it returns an error without
    running [trustCmd], otherwise it succeeds exactly when [trustCmd]
    does. *)
Theorem unix_install_sequence (m : machine) (trustFile : string) (tc : list string)
    (read_ok : bool) (serial : Z) (st : pstate) :
  tc <> [] ->
  let '(r, st') := Unix_Install m trustFile (Some tc) read_ok serial st in
  (read_ok = false /\ r <> None /\ st' = st) \/
  (read_ok = true /\
   exists c1 pre1, c1.(CmdArgs) = pre1 ++ ["tee"; systemTrust trustFile serial] /\
   ((snd (m_run m c1) = true /\ st'.(ran) = st.(ran) ++ [c1] /\ r <> None) \/
    (snd (m_run m c1) = false /\ exists c2 pre2, c2.(CmdArgs) = pre2 ++ tc /\
       st'.(ran) = st.(ran) ++ [c1; c2] /\ (r = None <-> snd (m_run m c2) = false)))).
Proof.
  intros Htc. unfold Unix_Install.
  destruct read_ok; cbn [negb].
  - pose proof (unix_two_step m ["tee"; systemTrust trustFile serial] tc st
                  "truststore.Unix: exit status 1" ltac:(discriminate) Htc) as H.
    destruct (let '(c1, st1) := _ in _) as [r st'].
    right. split; [reflexivity|].
    destruct H as (c1 & pre1 & H1 & [(F & R & ->)|H2]).
    + exists c1, pre1. split; [exact H1|]. left. split; [exact F|]. split; [exact R|discriminate].
    + exists c1, pre1. split; [exact H1|]. right. exact H2.
  - left. split; [reflexivity|]. split; [discriminate|reflexivity].
Qed.

(** Witness of [unix_install_sequence]: the Debian store under [sudo]. *)
Lemma unix_install_sequence_witness :
  ["update-ca-certificates"] <> [] /\
  let '(r, st') := Unix_Install m_sudo "/usr/local/share/ca-certificates/%s.crt"
                     (Some ["update-ca-certificates"]) true 7%Z pstate0 in
  (true = false /\ r <> None /\ st' = pstate0) \/
  (true = true /\
   exists c1 pre1,
   c1.(CmdArgs) = pre1 ++ ["tee"; systemTrust "/usr/local/share/ca-certificates/%s.crt" 7%Z] /\
   ((snd (m_run m_sudo c1) = true /\ st'.(ran) = pstate0.(ran) ++ [c1] /\ r <> None) \/
    (snd (m_run m_sudo c1) = false /\ exists c2 pre2, c2.(CmdArgs) = pre2 ++ ["update-ca-certificates"] /\
       st'.(ran) = pstate0.(ran) ++ [c1; c2] /\ (r = None <-> snd (m_run m_sudo c2) = false)))).
Proof.
  assert (H : ["update-ca-certificates"] <> []) by discriminate.
  split; [exact H|].
  exact (unix_install_sequence m_sudo "/usr/local/share/ca-certificates/%s.crt"
           ["update-ca-certificates"] true 7%Z pstate0 H).
Defined.

(** [Unix.Uninstall] with a [trustCmd] removes the file [systemTrust]
    names with [rm -f], then runs [trustCmd]; if [rm] fails it returns an
    error without running [trustCmd], otherwise it succeeds exactly when
    [trustCmd] does. *)
Theorem unix_uninstall_sequence (m : machine) (trustFile : string) (tc : list string)
    (serial : Z) (st : pstate) :
  tc <> [] ->
  let '(r, st') := Unix_Uninstall m trustFile (Some tc) serial st in
  exists c1 pre1, c1.(CmdArgs) = pre1 ++ ["rm"; "-f"; systemTrust trustFile serial] /\
   ((snd (m_run m c1) = true /\ st'.(ran) = st.(ran) ++ [c1] /\ r <> None) \/
    (snd (m_run m c1) = false /\ exists c2 pre2, c2.(CmdArgs) = pre2 ++ tc /\
       st'.(ran) = st.(ran) ++ [c1; c2] /\ (r = None <-> snd (m_run m c2) = false))).
Proof.
  intros Htc. unfold Unix_Uninstall.
  pose proof (unix_two_step m ["rm"; "-f"; systemTrust trustFile serial] tc st
                "truststore.Unix: exit status 1" ltac:(discriminate) Htc) as H.
  destruct (let '(c1, st1) := _ in _) as [r st'].
  destruct H as (c1 & pre1 & H1 & [(F & R & ->)|H2]).
  - exists c1, pre1. split; [exact H1|]. left. split; [exact F|]. split; [exact R|discriminate].
  - exists c1, pre1. split; [exact H1|]. right. exact H2.
Qed.

(** Witness of [unix_uninstall_sequence]: the Debian store under [sudo]. *)
Lemma unix_uninstall_sequence_witness :
  ["update-ca-certificates"] <> [] /\
  let '(r, st') := Unix_Uninstall m_sudo "/usr/local/share/ca-certificates/%s.crt"
                     (Some ["update-ca-certificates"]) 7%Z pstate0 in
  exists c1 pre1,
   c1.(CmdArgs) = pre1 ++ ["rm"; "-f"; systemTrust "/usr/local/share/ca-certificates/%s.crt" 7%Z] /\
   ((snd (m_run m_sudo c1) = true /\ st'.(ran) = pstate0.(ran) ++ [c1] /\ r <> None) \/
    (snd (m_run m_sudo c1) = false /\ exists c2 pre2, c2.(CmdArgs) = pre2 ++ ["update-ca-certificates"] /\
       st'.(ran) = pstate0.(ran) ++ [c1; c2] /\ (r = None <-> snd (m_run m_sudo c2) = false))).
Proof.
  assert (H : ["update-ca-certificates"] <> []) by discriminate.
  split; [exact H|].
  exact (unix_uninstall_sequence m_sudo "/usr/local/share/ca-certificates/%s.crt"
           ["update-ca-certificates"] 7%Z pstate0 H).
Defined.

Lemma pretty_N_char_not_space (x : N) : Ascii.eqb " " (pretty_N_char x) = false.
Proof. unfold pretty_N_char. repeat case_match; reflexivity. Qed.

Lemma pretty_N_go_no_space (x : N) (s : string) :
  str_elem " " s = false -> str_elem " " (pretty_N_go x s) = false.
Proof.
  revert s. induction (N.lt_wf_0 x) as [x _ IH]; intros s Hs.
  assert (x = 0 \/ 0 < x)%N as [->|Hx] by lia; [rewrite pretty_N_go_0; exact Hs|].
  rewrite pretty_N_go_step by exact Hx. apply IH; [apply N.div_lt; lia|].
  cbn [str_elem]. rewrite pretty_N_char_not_space. exact Hs.
Qed.

Lemma pretty_Z_no_space (z : Z) : str_elem " " (pretty z) = false.
Proof.
  assert (HN : forall p, str_elem " " (pretty (N.pos p)) = false).
  { intros p. unfold pretty, pretty_N.
    destruct (decide (N.pos p = 0%N)); [reflexivity|].
    apply pretty_N_go_no_space. reflexivity. }
  destruct z as [|p|p]; [reflexivity|apply HN|].
  change (str_elem " " (String "-" (pretty (N.pos p))) = false).
  cbn [str_elem]. exact (HN p).
Qed.

Lemma str_map_app (g : ascii -> ascii) (a b : string) :
  str_map g (a ++ b) = (str_map g a ++ str_map g b)%string.
Proof.
  induction a as [|c a IH]; [reflexivity|].
  unfold str_map in *. simpl. rewrite IH. reflexivity.
Qed.

Lemma space_to_underscore_id (s : string) :
  str_elem " " s = false -> space_to_underscore s = s.
Proof.
  unfold space_to_underscore, str_map.
  induction s as [|c s IH]; [reflexivity|]. cbn [str_elem]. intros H.
  apply orb_false_iff in H as [Hc Hs]. cbn.
  rewrite Ascii.eqb_sym in Hc. rewrite Hc, (IH Hs). reflexivity.
Qed.

Lemma str_elem_app (c : ascii) (a b : string) :
  str_elem c (a ++ b) = str_elem c a || str_elem c b.
Proof.
  induction a as [|d a IH]; [reflexivity|]. simpl. rewrite IH. apply orb_assoc.
Qed.

Lemma string_app_inv_l (a b c : string) : (a ++ b = a ++ c)%string -> b = c.
Proof. induction a as [|d a IH]; [auto|]. simpl. intros H. injection H. exact IH. Qed.

Lemma list_ascii_of_string_app (a b : string) :
  list_ascii_of_string (a ++ b) = list_ascii_of_string a ++ list_ascii_of_string b.
Proof. induction a as [|d a IH]; [reflexivity|]. simpl. rewrite IH. reflexivity. Qed.

Lemma string_app_inv_r (a b c : string) : (a ++ c = b ++ c)%string -> a = b.
Proof.
  intros H. apply (f_equal list_ascii_of_string) in H.
  rewrite !list_ascii_of_string_app in H. apply app_inv_tail in H.
  rewrite <- (string_of_list_ascii_of_string a), <- (string_of_list_ascii_of_string b), H.
  reflexivity.
Qed.

Lemma systemTrust_eq (trustFile dir ext : string) (serial : Z) :
  (forall a, sprintf1 trustFile a = (dir ++ a ++ ext)%string) ->
  systemTrust trustFile serial = (dir ++ "zcert_development_CA_" ++ pretty serial ++ ext)%string.
Proof.
  intros Hf. unfold systemTrust. rewrite Hf. f_equal.
  unfold space_to_underscore, caName. rewrite str_map_app.
  fold (space_to_underscore (pretty serial)).
  rewrite (space_to_underscore_id (pretty serial)) by apply pretty_Z_no_space. reflexivity.
Qed.

(** For each store [trustFile]/[trustCmd] can select, the file
    [systemTrust] names is the store's anchor directory, then
    "zcert_development_CA_" and the serial in decimal, then the store's
    extension; it has no space; roots with different serials get
    different files; and [trustCmd] is not empty. *)
Theorem system_trust_file (exists_ : string -> bool) (trustFile : string)
    (tc : list string) :
  select_trust exists_ = (trustFile, Some tc) ->
  tc <> [] /\
  (forall serial, exists dir ext,
     systemTrust trustFile serial = (dir ++ "zcert_development_CA_" ++ pretty serial ++ ext)%string /\
     str_elem " " (systemTrust trustFile serial) = false) /\
  (forall s1 s2, systemTrust trustFile s1 = systemTrust trustFile s2 -> s1 = s2).
Proof.
  intros H.
  assert (Hfmt : tc <> [] /\ exists dir ext,
            str_elem " " dir = false /\ str_elem " " ext = false /\
            forall a, sprintf1 trustFile a = (dir ++ a ++ ext)%string).
  { unfold select_trust in H.
    destruct (exists_ "/etc/pki/ca-trust/source/anchors/");
      [injection H as <- <-; split; [discriminate|];
       exists "/etc/pki/ca-trust/source/anchors/", ".pem"; auto|].
    destruct (exists_ "/usr/local/share/ca-certificates/");
      [injection H as <- <-; split; [discriminate|];
       exists "/usr/local/share/ca-certificates/", ".crt"; auto|].
    destruct (exists_ "/etc/ca-certificates/trust-source/anchors/");
      [injection H as <- <-; split; [discriminate|];
       exists "/etc/ca-certificates/trust-source/anchors/", ".crt"; auto|].
    destruct (exists_ "/usr/share/pki/trust/anchors");
      [injection H as <- <-; split; [discriminate|];
       exists "/usr/share/pki/trust/anchors/", ".pem"; auto|].
    destruct (exists_ "/usr/share/ca-certificates/mozilla");
      [injection H as <- <-; split; [discriminate|];
       exists "/usr/share/ca-certificates/mozilla/", ".crt"; auto|].
    discriminate. }
  destruct Hfmt as (Htc & dir & ext & Hd & He & Hf).
  split; [exact Htc|]. split.
  - intros serial. exists dir, ext. rewrite (systemTrust_eq _ _ _ _ Hf).
    split; [reflexivity|].
    rewrite !str_elem_app, Hd, He, pretty_Z_no_space. reflexivity.
  - intros s1 s2 Heq. rewrite !(systemTrust_eq _ _ _ _ Hf) in Heq.
    apply string_app_inv_l in Heq. apply string_app_inv_l in Heq.
    apply string_app_inv_r in Heq. apply (inj pretty) in Heq. exact Heq.
Qed.

(** Witness of [system_trust_file]: a system with the Debian layout. *)
Lemma system_trust_file_witness :
  let ex := fun d => String.eqb d "/usr/local/share/ca-certificates/" in
  select_trust ex = ("/usr/local/share/ca-certificates/%s.crt", Some ["update-ca-certificates"]) /\
  ["update-ca-certificates"] <> [] /\
  (forall serial, exists dir ext,
     systemTrust "/usr/local/share/ca-certificates/%s.crt" serial =
       (dir ++ "zcert_development_CA_" ++ pretty serial ++ ext)%string /\
     str_elem " " (systemTrust "/usr/local/share/ca-certificates/%s.crt" serial) = false) /\
  (forall s1 s2, systemTrust "/usr/local/share/ca-certificates/%s.crt" s1 =
                 systemTrust "/usr/local/share/ca-certificates/%s.crt" s2 -> s1 = s2).
Proof.
  intros ex.
  assert (H : select_trust ex =
    ("/usr/local/share/ca-certificates/%s.crt", Some ["update-ca-certificates"])) by reflexivity.
  split; [exact H|]. exact (system_trust_file ex _ _ H).
Defined.

(** When the native calls succeed, [deleteCertsWithSerial] removes every
    entry that parses to a certificate with the serial, keeps every other
    entry in order, and reports whether it removed any. *)
Theorem delete_certs_with_serial_removes (w : win_env) (serial : Z)
    (store : list win_entry) (d0 : bool) :
  w.(win_enum_end) = None -> w.(win_dup_ok) = true -> w.(win_delete_ok) = true ->
  deleteCertsWithSerial w serial store d0 =
    (d0 || existsb (has_serial serial) store, None,
     List.filter (fun c => negb (has_serial serial c)) store).
Proof.
  intros Hend Hdup Hdel. revert d0.
  induction store as [|c rest IH]; intros d0.
  - cbn. rewrite Hend, orb_false_r. reflexivity.
  - destruct c as [pc|]; cbn [deleteCertsWithSerial has_serial existsb List.filter].
    + destruct (SerialNumber pc =? serial)%Z; cbn [negb orb].
      * rewrite Hdup, Hdel. cbn [negb]. rewrite IH. rewrite orb_true_r. reflexivity.
      * rewrite IH. reflexivity.
    + rewrite IH. reflexivity.
Qed.

(** Witness of [delete_certs_with_serial_removes]: two copies of the root
    among other entries. *)
Lemma delete_certs_with_serial_removes_witness :
  deleteCertsWithSerial win_ok 7
    [Some (cert_with_serial 7); None; Some (cert_with_serial 8); Some (cert_with_serial 7)] false =
    (true, None, [None; Some (cert_with_serial 8)]) /\
  deleteCertsWithSerial win_ok 7
    [Some (cert_with_serial 7); None; Some (cert_with_serial 8); Some (cert_with_serial 7)] false =
    (false || existsb (has_serial 7)
       [Some (cert_with_serial 7); None; Some (cert_with_serial 8); Some (cert_with_serial 7)], None,
     List.filter (fun c => negb (has_serial 7 c))
       [Some (cert_with_serial 7); None; Some (cert_with_serial 8); Some (cert_with_serial 7)]).
Proof.
  split; [reflexivity|].
  apply delete_certs_with_serial_removes; reflexivity.
Defined.

(** The loop over [trustList] in [Darwin.Install] changes at most one
    entry: either the list comes back as it was, or exactly one entry,
    one whose [issuerName] is the root's subject, gets
    [trustSettings] set, and all others are kept in order. *)
Theorem patch_trust_list_one_entry (subj : list Z) (l l' : list (string * pvalue)) :
  patch_trust_list subj l = Ok l' ->
  l' = l \/
  exists pre k entry post,
    l = pre ++ (k, PDict entry) :: post /\
    l' = pre ++ (k, PDict (dict_set entry "trustSettings" trustSettings)) :: post /\
    dict_get entry "issuerName" = Some (PData subj).
Proof.
  revert l'. induction l as [|[k v] l IH]; intros l' H.
  - cbn in H. injection H as <-. left. reflexivity.
  - cbn [patch_trust_list] in H.
    assert (Keep : forall r, patch_trust_list subj l = Ok r -> l' = (k, v) :: r ->
              l' = (k, v) :: l \/
              exists pre k2 entry post,
                (k, v) :: l = pre ++ (k2, PDict entry) :: post /\
                l' = pre ++ (k2, PDict (dict_set entry "trustSettings" trustSettings)) :: post /\
                dict_get entry "issuerName" = Some (PData subj)).
    { intros r Hr ->. destruct (IH r Hr) as [->|(pre & k2 & entry & post & Hl & Hr2 & Hg)].
      - left. reflexivity.
      - right. exists ((k, v) :: pre), k2, entry, post. rewrite Hl, Hr2. auto. }
    destruct v as [| | | | |entry]; try discriminate.
    destruct (dict_get entry "issuerName") as [[| |issuer| | |]|] eqn:G; try discriminate.
    + destruct (bool_decide (subj = issuer)) eqn:B.
      * apply bool_decide_eq_true_1 in B. subst issuer. injection H as <-.
        right. exists [], k, entry, l. auto.
      * destruct (patch_trust_list subj l) as [r| | |] eqn:E; try discriminate.
        injection H as <-. eapply Keep; reflexivity.
    + destruct (patch_trust_list subj l) as [r| | |] eqn:E; try discriminate.
      injection H as <-. eapply Keep; reflexivity.
Qed.

(** Witness of [patch_trust_list_one_entry]: the second entry is the
    root's. *)
Lemma patch_trust_list_one_entry_witness :
  exists l2,
    patch_trust_list (subject_der (cert_with_serial 7).(Subject)) trust_list_sample = Ok l2 /\
    (l2 = trust_list_sample \/
     exists pre k entry post,
       trust_list_sample = pre ++ (k, PDict entry) :: post /\
       l2 = pre ++ (k, PDict (dict_set entry "trustSettings" trustSettings)) :: post /\
       dict_get entry "issuerName" = Some (PData (subject_der (cert_with_serial 7).(Subject)))).
Proof.
  eexists. split; [vm_compute; reflexivity|].
  apply patch_trust_list_one_entry. vm_compute. reflexivity.
Defined.

(** [Java.Uninstall] treats a missing alias as success: when keytool's
    output says the alias does not exist (and the keystore was found, so
    no escalated retry happens), it returns nil after that single run,
    whether or not keytool failed. *)
Theorem java_uninstall_missing_alias (javaHome : string) (m : machine) (c : Cmd)
    (st : pstate) :
  str_contains (fst (m_run m c)) "does not exist" = true ->
  str_contains (fst (m_run m c)) "java.io.FileNotFoundException" = false ->
  Java_Uninstall javaHome m c st = (None, mkPState st.(warned) (st.(ran) ++ [c]) st.(stderr)).
Proof.
  intros Hd Hf. unfold Java_Uninstall, execKeytool, execRetry.
  rewrite CombinedOutput_eq. cbn [fst snd]. rewrite Hf, andb_false_r. cbn [andb].
  rewrite Hd. reflexivity.
Qed.

Lemma java_uninstall_missing_alias_witness :
  let c := mkCmd "keytool" ["keytool"; "-delete"] None in
  Java_Uninstall "/usr/lib/jvm" m_no_alias c pstate0 =
    (None, mkPState pstate0.(warned) (pstate0.(ran) ++ [c]) pstate0.(stderr)).
Proof.
  cbv zeta. apply java_uninstall_missing_alias; vm_compute; reflexivity.
Defined.

Lemma Create_ok_files (e : sysenv) (d : create_draws) (ca ca1 : CARoot) (f f1 : fs)
    (rc rk : path) :
  StorePath e = Some (rc, rk) -> f.(files) !! rk = None ->
  Create e d ca f = (Ok tt, ca1, f1) ->
  exists k s,
    let subj := mkName ["zcert development CA"] [user_and_hostname]
                       ("zcert " ++ user_and_hostname)%string in
    d.(cd_key) = Some k /\ d.(cd_serial) = Some s /\
    ca1 = mkCA (Some (mkCert s subj None (Some (Public k)) true [] [] [] [] [])) (Some k) /\
    f1.(files) !! rk = Some (mkFile (PemPrivateKey k) (N.ldiff 256 e.(umask))) /\
    f1.(files) !! rc = Some (mkFile (PemCertificate
                                (mkCert s subj (Some (Public k)) (Some (Public k)) true [] [] [] [] []))
                              (N.ldiff 420 e.(umask))).
Proof.
  intros HS Hk H. pose proof (StorePath_distinct e rc rk HS) as Hne.
  unfold Create in H. rewrite HS in H.
  destruct (Exists e f) eqn:Ex; [discriminate|].
  rewrite (Exists_cert_only e f rc rk HS) in Ex. apply pathExists_false_file in Ex.
  destruct (MkdirAll f (parent rc)) as [f2| | |] eqn:Em; try discriminate.
  destruct (MkdirAll_spec f f2 (parent rc) Em) as (Hf2 & _ & _).
  destruct (cd_key d) as [k|]; [|discriminate].
  destruct (cd_serial d) as [sr|]; [|discriminate].
  destruct (cd_sign_ok d); [|discriminate]. cbn [negb] in H.
  destruct (WriteFile _ _ f2 rk _ _) as [f3| | |] eqn:W1; try discriminate.
  destruct (WriteFile _ _ f3 rc _ _) as [f4| | |] eqn:W2; try discriminate.
  injection H as <- <-.
  destruct (WriteFile_new _ _ _ _ _ _ _ ltac:(rewrite Hf2; exact Hk) W1) as [Hf3 _].
  assert (Hrc3 : f3.(files) !! rc = None).
  { rewrite Hf3, lookup_insert_ne by congruence. rewrite Hf2. exact Ex. }
  destruct (WriteFile_new _ _ _ _ _ _ _ Hrc3 W2) as [Hf4 _].
  exists k, sr. cbn zeta.
  split; [reflexivity|]. split; [reflexivity|]. split; [reflexivity|].
  split; [rewrite Hf4, lookup_insert_ne, Hf3, lookup_insert_eq by congruence; reflexivity|].
  rewrite Hf4, lookup_insert_eq. reflexivity.
Qed.

Lemma readable_created (r : bool) (u m : N) (x : file_data) :
  N.testbit m 8 = true ->
  readable r (mkFile x (N.ldiff m u)) = r || negb (N.testbit u 8).
Proof. intros Hm. unfold readable. cbn [fmode]. rewrite N.ldiff_spec, Hm. reflexivity. Qed.

(** Round trip of the root through the disk: after a successful [Create]
    that wrote a new key file, [Load] on a fresh [CARoot] over the same
    files gives back the created private key and a certificate with the
    serial and subject of the one [Create] kept and the public key of
    that key, which the kept template lacks. [Load] can read the two
    files when the process runs as root or its umask leaves the
    owner-read bit set. *)
Theorem create_load_roundtrip (e : sysenv) (d : create_draws) (f f1 : fs)
    (ca ca1 ca' : CARoot) (rc rk : path) :
  StorePath e = Some (rc, rk) -> f.(files) !! rk = None ->
  e.(running_as_root) = true \/ N.testbit e.(umask) 8 = false ->
  Create e d ca f = (Ok tt, ca1, f1) ->
  exists c1 k1 c2,
    ca1 = mkCA (Some c1) (Some k1) /\
    Load e ca' f1 = (Ok tt, mkCA (Some c2) (Some k1)) /\
    c2.(SerialNumber) = c1.(SerialNumber) /\ c2.(Subject) = c1.(Subject) /\
    c2.(CertPublicKey) = Some (Public k1) /\ c1.(CertPublicKey) = None /\
    d.(cd_key) = Some k1.
Proof.
  intros HS Hk Hr H.
  destruct (Create_ok_files e d ca ca1 f f1 rc rk HS Hk H) as (k & s & HK & _ & -> & Hkf & Hcf).
  assert (Hread : running_as_root e || negb (N.testbit (umask e) 8) = true)
    by (destruct Hr as [-> | ->]; [reflexivity|destruct (running_as_root e); reflexivity]).
  eexists _, k, _. split; [reflexivity|]. split.
  - unfold Load. rewrite (Exists_cert_only e f1 rc rk HS). unfold pathExists.
    rewrite Hcf. simpl. rewrite HS. unfold LoadX509KeyPair. rewrite Hcf.
    rewrite readable_created, Hread by reflexivity. cbn [negb fdata].
    rewrite Hkf. rewrite readable_created, Hread by reflexivity. cbn [negb fdata].
    unfold ParseCertificate. cbn [URIs existsb].
    rewrite bool_decide_eq_true_2 by reflexivity. reflexivity.
  - cbn. repeat split. exact HK.
Qed.

(** Witness of [create_load_roundtrip] on an empty disk with CAROOT set
    and umask 022. *)
Lemma create_load_roundtrip_witness :
  exists c1 k1 c2,
    Create sys0 draws0 ca_empty fs0 = (Ok tt, mkCA (Some c1) (Some k1),
                                       snd (Create sys0 draws0 ca_empty fs0)) /\
    Load sys0 ca_empty (snd (Create sys0 draws0 ca_empty fs0)) =
      (Ok tt, mkCA (Some c2) (Some k1)) /\
    c2.(SerialNumber) = c1.(SerialNumber) /\ c2.(Subject) = c1.(Subject) /\
    c2.(CertPublicKey) = Some (Public k1) /\ c1.(CertPublicKey) = None /\
    draws0.(cd_key) = Some k1.
Proof.
  destruct (create_load_roundtrip sys0 draws0 fs0
              (snd (Create sys0 draws0 ca_empty fs0)) ca_empty
              (mkCA (Some (mkCert 7 (mkName ["zcert development CA"] [user_and_hostname]
                                       ("zcert " ++ user_and_hostname)%string)
                             None (Some (Public 11%Z)) true [] [] [] [] []))
                    (Some 11%Z)) ca_empty ca_cert_path ca_key_path
              ltac:(reflexivity) ltac:(reflexivity) ltac:(right; reflexivity)
              ltac:(vm_compute; reflexivity))
    as (c1 & k1 & c2 & Hca & HL & H).
  exists c1, k1, c2. split; [|exact (conj HL H)].
  rewrite <- Hca. vm_compute. reflexivity.
Defined.

(** A umask that clears the owner-read bit breaks the round trip for a
    process that is not root: [Create] succeeds, but the files it wrote
    cannot be read back, so [Load] fails. *)
Theorem create_then_load_unreadable (e : sysenv) (d : create_draws) (f f1 : fs)
    (ca ca1 ca' : CARoot) (rc rk : path) :
  StorePath e = Some (rc, rk) -> f.(files) !! rk = None ->
  e.(running_as_root) = false -> N.testbit e.(umask) 8 = true ->
  Create e d ca f = (Ok tt, ca1, f1) ->
  Load e ca' f1 = (Err "zcert.Load: tls", ca').
Proof.
  intros HS Hk Hr Hu H.
  destruct (Create_ok_files e d ca ca1 f f1 rc rk HS Hk H) as (k & s & _ & _ & _ & _ & Hcf).
  unfold Load. rewrite (Exists_cert_only e f1 rc rk HS). unfold pathExists.
  rewrite Hcf. simpl. rewrite HS. unfold LoadX509KeyPair. rewrite Hcf.
  rewrite readable_created by reflexivity. rewrite Hr, Hu. reflexivity.
Qed.

(** Witness of [create_then_load_unreadable]: umask 0477. *)
Lemma create_then_load_unreadable_witness :
  let e := mkSys "/tmp/ca" "" "" "/home/u" "linux" false 319%N in
  fst (fst (Create e draws0 ca_empty fs0)) = Ok tt /\
  Load e ca_empty (snd (Create e draws0 ca_empty fs0)) = (Err "zcert.Load: tls", ca_empty).
Proof.
  cbv zeta. split; [vm_compute; reflexivity|].
  apply (create_then_load_unreadable _ draws0 fs0 _ ca_empty
           (snd (fst (Create (mkSys "/tmp/ca" "" "" "/home/u" "linux" false 319%N) draws0 ca_empty fs0)))
           ca_empty ca_cert_path ca_key_path);
    [reflexivity|reflexivity|reflexivity|reflexivity|].
  vm_compute. reflexivity.
Defined.
